(** * Font scanner and installer for DaVinci Resolve: a shallow embedding of
    [font.py] and the properties of its resolution pipeline.

    Conventions.  A Python [str] is a [string]; the character tables used
    ([str.lower], [str.upper], [str.strip], the regex classes [\s], [\w]) are
    the ASCII ones: characters above 127 have no case, are not white space and
    are not word characters.  Statements that depend on case are made for
    ASCII text.  Python sets and dicts are [gset]s and [gmap]s; files are byte
    strings held in maps from file names. *)

From Stdlib Require Import Ascii String NArith Bool List Lia.
From Stdlib.Strings Require Import Byte.
From stdpp Require Import base option list gmap strings fin_maps.

(** ** Characters and strings *)

Module Py.

Local Open Scope N_scope.

Definition code (c : ascii) : N := N_of_ascii c.

Definition in_range (lo hi : N) (c : ascii) : bool :=
  (lo <=? code c) && (code c <=? hi).

Definition is_ascii (c : ascii) : bool := code c <? 128.
Definition is_upper (c : ascii) : bool := in_range 65 90 c.
Definition is_lower (c : ascii) : bool := in_range 97 122 c.
Definition is_digit (c : ascii) : bool := in_range 48 57 c.

(** [\w]: letters, digits and the underscore. *)
Definition is_word (c : ascii) : bool :=
  is_upper c || is_lower c || is_digit c || (code c =? 95).

(** [\s] and the characters removed by [str.strip()]: tab, line feed,
    vertical tab, form feed, carriage return, the separators 28 to 31 and
    the space. *)
Definition is_space (c : ascii) : bool :=
  in_range 9 13 c || in_range 28 31 c || (code c =? 32).

Definition char_lower (c : ascii) : ascii :=
  if is_upper c then ascii_of_N (code c + 32) else c.

Definition char_upper (c : ascii) : ascii :=
  if is_lower c then ascii_of_N (code c - 32) else c.

Fixpoint smap (f : ascii -> ascii) (s : string) : string :=
  match s with
  | EmptyString => EmptyString
  | String c s' => String (f c) (smap f s')
  end.

Fixpoint sfilter (p : ascii -> bool) (s : string) : string :=
  match s with
  | EmptyString => EmptyString
  | String c s' => if p c then String c (sfilter p s') else sfilter p s'
  end.

Fixpoint sall (p : ascii -> bool) (s : string) : bool :=
  match s with
  | EmptyString => true
  | String c s' => p c && sall p s'
  end.

(** [s.lower()], [s.upper()] *)
Definition lower (s : string) : string := smap char_lower s.
Definition upper (s : string) : string := smap char_upper s.

Definition is_empty (s : string) : bool :=
  match s with EmptyString => true | _ => false end.

Fixpoint lstrip (s : string) : string :=
  match s with
  | EmptyString => EmptyString
  | String c s' => if is_space c then lstrip s' else s
  end.

Fixpoint rstrip (s : string) : string :=
  match s with
  | EmptyString => EmptyString
  | String c s' =>
      let r := rstrip s' in
      if is_space c && is_empty r then EmptyString else String c r
  end.

(** [s.strip()] *)
Definition strip (s : string) : string := rstrip (lstrip s).

(** [s[:n]] *)
Fixpoint slice_to (n : nat) (s : string) : string :=
  match n, s with
  | S n', String c s' => String c (slice_to n' s')
  | _, _ => EmptyString
  end.

(** Truth value of a string: the empty string is false. *)
Definition truthy (s : string) : bool := negb (is_empty s).

End Py.

(** ** Regular expressions

    The fragment of Python's [re] that the patterns of the program use: a
    backtracking matcher that tries alternatives from left to right and
    repetitions greedily, with one capturing group and the word boundary
    [\b].  A position in the subject is the text that remains together with
    a flag telling whether the character before it is a word character. *)

Module Re.
Import Py.

Inductive regex : Type :=
| Lit (t : string)            (* literal text *)
| Cls (p : ascii -> bool)     (* one character of a class *)
| Cat (r1 r2 : regex)
| Alt (r1 r2 : regex)
| Star (r : regex)            (* r*, greedy *)
| Group (r : regex)           (* ( r ) *)
| WordB.                      (* \b *)

(** [r+] *)
Definition Plus (r : regex) : regex := Cat r (Star r).

Fixpoint match_lit (t : string) (w : bool) (s : string) : option (bool * string) :=
  match t with
  | EmptyString => Some (w, s)
  | String a t' =>
      match s with
      | EmptyString => None
      | String b s' => if Ascii.eqb a b then match_lit t' (is_word b) s' else None
      end
  end.

Definition next_is_word (s : string) : bool :=
  match s with
  | EmptyString => false
  | String c _ => is_word c
  end.

Definition at_boundary (w : bool) (s : string) : bool := xorb w (next_is_word s).

Definition consumed (s s' : string) : string :=
  slice_to (String.length s - String.length s') s.

Fixpoint rmatch {R : Type} (r : regex) (w : bool) (s : string) (cap : option string)
    (k : bool -> string -> option string -> option R) : option R :=
  match r with
  | Lit t =>
      match match_lit t w s with
      | Some (w', s') => k w' s' cap
      | None => None
      end
  | Cls p =>
      match s with
      | String c s' => if p c then k (is_word c) s' cap else None
      | EmptyString => None
      end
  | Cat r1 r2 => rmatch r1 w s cap (fun w' s' cap' => rmatch r2 w' s' cap' k)
  | Alt r1 r2 =>
      match rmatch r1 w s cap k with
      | Some x => Some x
      | None => rmatch r2 w s cap k
      end
  | Star r1 =>
      (fix star (n : nat) (w : bool) (s : string) (cap : option string) : option R :=
         match n with
         | O => k w s cap
         | S n' =>
             match rmatch r1 w s cap (fun w' s' cap' =>
                     if (String.length s' <? String.length s)%nat
                     then star n' w' s' cap' else None) with
             | Some x => Some x
             | None => k w s cap
             end
         end) (String.length s) w s cap
  | Group r1 => rmatch r1 w s cap (fun w' s' _ => k w' s' (Some (consumed s s')))
  | WordB => if at_boundary w s then k w s cap else None
  end.

(** One attempt at the current position: the position after the match and
    the text of the group. *)
Definition match_here (r : regex) (w : bool) (s : string)
  : option (bool * string * option string) :=
  rmatch r w s None (fun w' s' cap => Some (w', s', cap)).

(** [re.findall(r, s)] for a pattern with at most one group: the text of
    the group of every match (of the match itself when the pattern has no
    group), scanning from left to right without overlap.  A match that
    consumes nothing is passed over; no pattern of the program has one. *)
Fixpoint findall_go (fuel : nat) (r : regex) (w : bool) (s : string) : list string :=
  match fuel with
  | O => []
  | S fuel' =>
      let step :=
        match s with
        | EmptyString => []
        | String c s1 => findall_go fuel' r (is_word c) s1
        end in
      match match_here r w s with
      | Some (w', s', cap) =>
          if (String.length s' <? String.length s)%nat
          then from_option id (consumed s s') cap :: findall_go fuel' r w' s'
          else step
      | None => step
      end
  end.

Definition findall (r : regex) (s : string) : list string :=
  findall_go (S (String.length s)) r false s.

(** [re.sub(r, repl, s)] for a replacement without group references. *)
Fixpoint sub_go (fuel : nat) (r : regex) (repl : string) (w : bool) (s : string) : string :=
  match fuel with
  | O => s
  | S fuel' =>
      let step :=
        match s with
        | EmptyString => EmptyString
        | String c s1 => String c (sub_go fuel' r repl (is_word c) s1)
        end in
      match match_here r w s with
      | Some (w', s', _) =>
          if (String.length s' <? String.length s)%nat
          then repl +:+ sub_go fuel' r repl w' s'
          else step
      | None => step
      end
  end.

Definition sub (r : regex) (repl s : string) : string :=
  sub_go (S (String.length s)) r repl false s.

End Re.

(** ** The matcher's name normalisation (font.py, [normalize_font_name]) *)

Import Py.

(** [\b(ps|mt|std|pro|light|bold|regular|medium|italic)\b] *)
Definition name_tokens : list string :=
  ["ps"; "mt"; "std"; "pro"; "light"; "bold"; "regular"; "medium"; "italic"].

Definition token_re : Re.regex :=
  Re.Cat Re.WordB
    (Re.Cat
       (Re.Group
          (Re.Alt (Re.Lit "ps") (Re.Alt (Re.Lit "mt") (Re.Alt (Re.Lit "std")
          (Re.Alt (Re.Lit "pro") (Re.Alt (Re.Lit "light") (Re.Alt (Re.Lit "bold")
          (Re.Alt (Re.Lit "regular") (Re.Alt (Re.Lit "medium") (Re.Lit "italic"))))))))))
       Re.WordB).

(** The text is one of the tokens. *)
Definition is_token (s : string) : bool := existsb (String.eqb s) name_tokens.

(** [[^a-z0-9]] is removed: what stays is [a-z0-9]. *)
Definition is_lower_alnum (c : ascii) : bool := is_lower c || is_digit c.

Definition normalize_font_name (name : string) : string :=
  let normalized := lower name in
  let normalized := Re.sub token_re "" normalized in
  let normalized := sfilter is_lower_alnum normalized in
  strip normalized.

(** ** Requirement extractor (font.py, [parse_fonts_from_setting]) *)

Definition dquote : string := String (ascii_of_N 34) EmptyString.

Definition is_not (c x : ascii) : bool := negb (Ascii.eqb x c).

Definition cat_all (rs : list Re.regex) : Re.regex :=
  foldr Re.Cat (Re.Lit "") rs.

(** [\s*] *)
Definition ws : Re.regex := Re.Star (Re.Cls is_space).

(** [key\s*=\s*Input\s*{[^}]*Value\s*=\s*Q([^Q]+)Q[^}]*}] where [Q] stands
    for the double quote and [key] is one of [Font] and [Style]. *)
Definition input_value_re (key : string) : Re.regex :=
  cat_all
    [ Re.Lit key; ws; Re.Lit "="; ws; Re.Lit "Input"; ws; Re.Lit "{";
      Re.Star (Re.Cls (is_not "}")); Re.Lit "Value"; ws; Re.Lit "="; ws;
      Re.Lit dquote; Re.Group (Re.Plus (Re.Cls (is_not "034")));
      Re.Lit dquote; Re.Star (Re.Cls (is_not "}")); Re.Lit "}" ].

Definition font_re : Re.regex := input_value_re "Font".
Definition style_re : Re.regex := input_value_re "Style".

(** The loop [for i, font in enumerate(matches)], started at index [i]. *)
Fixpoint pair_fonts (i : nat) (matches style_matches : list string)
  : list (string * string) :=
  match matches with
  | [] => []
  | font :: rest =>
      let style :=
        if (i <? length style_matches)%nat
        then nth i style_matches "" else "Regular" in
      (strip font, strip style) :: pair_fonts (S i) rest style_matches
  end.

Definition fonts_of_content (content : string) : list (string * string) :=
  let matches := Re.findall font_re content in
  let style_matches := Re.findall style_re content in
  pair_fonts 0 matches style_matches.

(** A descriptor with two families and one style. *)
Definition sample_setting : string :=
  "Font = Input { Value = " +:+ dquote +:+ " Inter" +:+ dquote +:+ ", }, " +:+
  "Style = Input { Value = " +:+ dquote +:+ "Bold" +:+ dquote +:+ ", }, " +:+
  "Font = Input { Value = " +:+ dquote +:+ "Futura" +:+ dquote +:+ ", }".

(** What opening and reading the file gives. *)
Inductive read_result : Type :=
| ReadText (content : string)               (* read as utf-8 *)
| PermissionError
| UnicodeDecodeError (latin1 : option string) (* what the latin-1 reading gives,
                                                 [None] when it raises too *)
| ReadError.                                (* any other exception *)

Definition parse_fonts_from_setting (file : read_result) : list (string * string) :=
  match file with
  | ReadText content => fonts_of_content content
  | PermissionError => []
  | UnicodeDecodeError (Some content) => fonts_of_content content
  | UnicodeDecodeError None => []
  | ReadError => []
  end.

(** The text that the extractor works on, when the file gives one. *)
Definition text_read (file : read_result) : option string :=
  match file with
  | ReadText content => Some content
  | UnicodeDecodeError (Some content) => Some content
  | _ => None
  end.

(** ** Font inventory and name matcher *)

(** font.py, [scan_all], lines 424-429: the loop over [system_fonts] that
    fills [normalized_map].  [system_fonts] is a Python set; its iteration
    order is the list [order]. *)
Definition normalized_map_step (normalized_map : gmap string string) (font : string)
  : gmap string string :=
  let normalized := normalize_font_name font in
  if truthy normalized then <[normalized := font]> normalized_map
  else normalized_map.

Definition build_normalized_map (order : list string) : gmap string string :=
  foldl normalized_map_step ∅ order.

(** font.py, [is_font_installed]: found, match_type, matched_name and the
    style flag. *)
Definition is_font_installed (font_name style : string)
    (system_fonts : gset string) (lowercase_map normalized_map : gmap string string)
    (installed_styles : option (gmap string (list string)))
  : bool * string * string * bool :=
  let '(found, kind, matched) :=
    if bool_decide (font_name ∈ system_fonts) then
      (true, "exact match", font_name)
    else
      match lowercase_map !! lower font_name with
      | Some name => (true, "case-insensitive match", name)
      | None =>
          let normalized := normalize_font_name font_name in
          match normalized_map !! normalized with
          | Some name => (true, "normalized match", name)
          | None => (false, "", "")
          end
      end in
  match found, installed_styles with
  | true, Some styles_of =>
      let font_styles := default [] (styles_of !! matched) in
      if bool_decide (style ∈ font_styles) || bool_decide ("Regular" ∈ font_styles)
      then (true, kind, matched, true)
      else (true, kind, matched, false)
  | _, _ => (found, kind, matched, false)
  end.

(** The four components of what [is_font_installed] returns. *)
Definition font_installed (r : bool * string * string * bool) : bool := r.1.1.1.
Definition match_type (r : bool * string * string * bool) : string := r.1.1.2.
Definition matched_name (r : bool * string * string * bool) : string := r.1.2.
Definition style_available (r : bool * string * string * bool) : bool := r.2.

(** ** Files *)

(** A directory: the content of every file, by name (by path relative to
    the directory when it has sub-directories). *)
Abbreviation dir := (gmap string (list byte)).

Fixpoint bytes_startswith (data prefix : list byte) : bool :=
  match prefix with
  | [] => true
  | p :: prefix' =>
      match data with
      | [] => false
      | d :: data' => Byte.eqb p d && bytes_startswith data' prefix'
      end
  end.

(** [needle in data] *)
Fixpoint bytes_contains (needle data : list byte) : bool :=
  bytes_startswith data needle ||
  match data with
  | [] => false
  | _ :: data' => bytes_contains needle data'
  end.

Definition OTTO : list byte := list_byte_of_string "OTTO".
Definition TRUETYPE : list byte := [Byte.x00; Byte.x01; Byte.x00; Byte.x00].
Definition FVAR : list byte := list_byte_of_string "fvar".

Fixpoint after_last_slash (path : string) : option string :=
  match path with
  | EmptyString => None
  | String c rest =>
      match after_last_slash rest with
      | Some name => Some name
      | None => if Ascii.eqb c "/" then Some rest else None
      end
  end.

(** [path.name] *)
Definition basename (path : string) : string :=
  default path (after_last_slash path).

Fixpoint endswith (s suffix : string) : bool :=
  String.eqb s suffix ||
  match s with
  | EmptyString => false
  | String _ s' => endswith s' suffix
  end.

(** The glob [*.[ot]tf] on a file name. *)
Definition is_font_file (path : string) : bool :=
  endswith (basename path) ".otf" || endswith (basename path) ".ttf".

(** [list(d.rglob(pattern))] is not empty. *)
Definition has_font_files (d : dir) : bool :=
  negb (bool_decide (filter (fun p => is_font_file p.1 = true) (map_to_list d) = [])).

(** [zip_ref.extractall(d)] *)
Definition extractall (entries : list (string * list byte)) (d : dir) : dir :=
  foldl (fun d e => <[e.1 := e.2]> d) d entries.

Inductive zip_result : Type :=
| ZipOk (entries : list (string * list byte))
| BadZipFile
| ZipError.                      (* any other exception while extracting *)

Record staging : Type := mkStaging {
  temp_dir : dir;                (* files of TEMP_DIR itself *)
  fonts_dir : dir                (* TEMP_DIR / fonts *)
}.

Record counts : Type := mkCounts {
  installed_count : nat;
  replaced_count : nat;
  variable_count : nat;
  skipped_count : nat
}.

Section Host.

(** The [fontTools] package when it is installed: whether the font opened
    from these bytes has an [fvar] table, [None] when opening raises. *)
Variable fontTools : option (list byte -> option bool).

(** [zipfile.ZipFile(path).extractall] on a file of this content. *)
Variable unzip : list byte -> zip_result.

(** font.py, [is_variable_font], on the content of the file. *)
Definition is_variable_font (data : list byte) : bool :=
  match fontTools with
  | Some has_fvar =>
      match has_fvar data with
      | Some b => b
      | None => false
      end
  | None => bytes_contains FVAR data
  end.

(** *** Acquisition (font.py, [download_google_font] and
    [download_font_from_alternative_source])

    [response] is the body that the request returns, [None] when the
    request or [raise_for_status] raises. *)

Definition download_google_font (family style_info : string)
    (variants : option (list string)) (response : option (list byte))
    (st : staging) : bool * staging :=
  match response with
  | None => (false, st)
  | Some data =>
      let download_path := family +:+ ".download" in
      let st1 := mkStaging (<[download_path := data]> (temp_dir st)) (fonts_dir st) in
      match unzip data with
      | ZipOk entries =>
          (true, mkStaging (delete download_path (temp_dir st1))
                   (extractall entries (fonts_dir st1)))
      | BadZipFile =>
          let header := take 4 data in
          let ext :=
            if bytes_startswith header OTTO then ".otf"
            else if bytes_startswith header TRUETYPE then ".ttf"
            else ".ttf" in
          let font_path := family +:+ ext in
          (true, mkStaging (delete download_path (temp_dir st1))
                   (<[font_path := data]> (fonts_dir st1)))
      | ZipError => (false, st1)
      end
  end.

Definition download_font_from_alternative_source (font_name source_name : string)
    (style_info : string) (response : option (list byte))
    (st : staging) : bool * staging :=
  match response with
  | None => (false, st)
  | Some data =>
      let download_path := font_name +:+ "_" +:+ source_name +:+ ".zip" in
      let st1 := mkStaging (<[download_path := data]> (temp_dir st)) (fonts_dir st) in
      match unzip data with
      | ZipOk entries =>
          let fonts := extractall entries (fonts_dir st1) in
          if has_font_files fonts
          then (true, mkStaging (delete download_path (temp_dir st1)) fonts)
          else (false, mkStaging (temp_dir st1) fonts)
      | BadZipFile =>
          let header := take 4 data in
          if bytes_startswith header OTTO || bytes_startswith header TRUETYPE then
            let ext := if bytes_startswith header OTTO then ".otf" else ".ttf" in
            let font_path := font_name +:+ ext in
            (true, mkStaging (delete download_path (temp_dir st1))
                     (<[font_path := data]> (fonts_dir st1)))
          else (false, st1)
      | ZipError => (false, st1)
      end
  end.

(** A payload that is not an archive and starts with neither signature. *)
Definition unrecognized (data : list byte) : Prop :=
  unzip data = BadZipFile /\
  bytes_startswith (take 4 data) OTTO = false /\
  bytes_startswith (take 4 data) TRUETYPE = false.

(** *** Installer (font.py, [install_fonts_from_temp])

    One turn of the loop over the staged font files: [dest] is the font
    directory of the system, by file name. *)
Definition install_one (replace_existing : bool) (acc : dir * counts)
    (font_file : string * list byte) : dir * counts :=
  let '(dest, c) := acc in
  let is_variable := is_variable_font font_file.2 in
  let name := basename font_file.1 in
  let exists_ := bool_decide (is_Some (dest !! name)) in
  if exists_ && negb (replace_existing || is_variable) then
    (dest, mkCounts (installed_count c) (replaced_count c) (variable_count c)
             (S (skipped_count c)))
  else
    let c1 :=
      if exists_
      then mkCounts (installed_count c) (S (replaced_count c)) (variable_count c)
             (skipped_count c)
      else mkCounts (S (installed_count c)) (replaced_count c) (variable_count c)
             (skipped_count c) in
    let dest1 := <[name := font_file.2]> dest in
    let c2 :=
      if is_variable
      then mkCounts (installed_count c1) (replaced_count c1) (S (variable_count c1))
             (skipped_count c1)
      else c1 in
    (dest1, c2).

(** [staged] lists the font files found under the staging font directory,
    in the order of the traversal. *)
Definition install_fonts_from_temp (replace_existing : bool)
    (staged : list (string * list byte)) (dest : dir) : dir * counts :=
  foldl (install_one replace_existing) (dest, mkCounts 0 0 0 0)
    (filter (fun f => is_font_file f.1 = true) staged).

End Host.

(** ** Provider chain *)

(** A download reference: the dict with the keys [url] and [source]. *)
Record reference : Type := mkReference { ref_url : string; ref_source : string }.

(** A value tested with [if url:]: [None] and the empty string count as
    false. *)
Definition if_true (r : option string) : option string :=
  match r with
  | Some url => if truthy url then Some url else None
  | None => None
  end.

Section Chain.

(** The world outside the program that the searches act on: the sites and
    the HTTP session shared by the providers. *)
Context {W : Type}.

(** font.py, [search_1001fonts], [search_dafont] and [search_freefont]:
    each sends its requests through the shared session and returns a download
    URL or [None].  The chain uses them through their result and their
    effect only. *)
Variables search_1001fonts search_dafont search_freefont
  : string -> W -> option string * W.

(** The state of a run of the chain: the world, and the providers that were
    called so far, by their source label, oldest first. *)
Record chain_state : Type := mkChain { world : W; consulted : list string }.

Definition net (A : Type) : Type := chain_state -> A * chain_state.

Definition ret {A : Type} (a : A) : net A := fun st => (a, st).

Definition bind {A B : Type} (m : net A) (f : A -> net B) : net B :=
  fun st => let '(a, st') := m st in f a st'.

Notation "x <- m ;; k" := (bind m (fun x => k))
  (at level 100, m at next level, right associativity).

(** A call of a search function. *)
Definition call (label : string) (search : string -> W -> option string * W)
    (font_name : string) : net (option string) :=
  fun st =>
    let '(r, w) := search font_name (world st) in
    (r, mkChain w (consulted st ++ [label])).

(** font.py, [search_alternative_font_providers] *)
Definition search_alternative_font_providers (font_name : string)
  : net (option reference) :=
  url <- call "1001Fonts" search_1001fonts font_name ;;
  match if_true url with
  | Some url => ret (Some (mkReference url "1001Fonts"))
  | None =>
      url <- call "DaFont" search_dafont font_name ;;
      match if_true url with
      | Some url => ret (Some (mkReference url "DaFont"))
      | None =>
          url <- call "FreeFonts.io" search_freefont font_name ;;
          match if_true url with
          | Some url => ret (Some (mkReference url "FreeFonts.io"))
          | None => ret None
          end
      end
  end.

(** What [scan_all] decides for a missing family (lines 530-554): the
    entry of the index when the family is a key of it, else the chain. *)
Inductive resolution : Type :=
| FromGoogle (variants : list string)
| FromAlternative (alt_source : reference)
| Unavailable.

(** The index: the [variants] field of each family, when the record has
    one. *)
Definition get_available_variants (font_family : string)
    (google_fonts_index : gmap string (option (list string))) : list string :=
  match google_fonts_index !! font_family with
  | Some variants => default ["regular"] variants
  | None => []
  end.

Definition resolve_missing (google_fonts_index : gmap string (option (list string)))
    (font : string) : net resolution :=
  match google_fonts_index !! font with
  | Some _ => ret (FromGoogle (get_available_variants font google_fonts_index))
  | None =>
      alt_source <- search_alternative_font_providers font ;;
      match alt_source with
      | Some r => ret (FromAlternative r)
      | None => ret Unavailable
      end
  end.

End Chain.

(** ** The indexed source (font.py, [get_google_fonts_api_key] and
    [get_google_fonts_index]) *)

Definition API_URL_TEMPLATE : string :=
  "https://www.googleapis.com/webfonts/v1/webfonts?key={key}".

(** [f"https://www.googleapis.com/webfonts/v1/webfonts?key={key}"] *)
Definition api_url (key : string) : string :=
  "https://www.googleapis.com/webfonts/v1/webfonts?key=" +:+ key.

(** [url.format(key=key)]: the replacement field [{key}] is the only one
    that the URL of the program has. *)
Definition format_key (url key : string) : string :=
  Re.sub (Re.Lit "{key}") key url.

(** What a GET on the index gives. *)
Inductive api_response : Type :=
| Status (code : N) (items : option (list (string * option (list string))))
    (* the status code, and the [items] of the JSON body with the family and
       the variants of each; [None] when the body cannot be read so *)
| RequestFailed.
    (* the request itself raises *)

(** [raise_for_status] raises for the codes 400 to 599. *)
Definition is_http_error (code : N) : bool := ((400 <=? code) && (code <? 600))%N.

(** [{f[family]: f for f in fonts}] *)
Definition index_of (items : list (string * option (list string)))
  : gmap string (option (list string)) :=
  foldl (fun m f => <[f.1 := f.2]> m) ∅ items.

(** The globals, the terminal, the key file and the requests sent. *)
Record session : Type := mkSession {
  GOOGLE_API_KEY : string;
  GOOGLE_API_URL : string;
  stdin : list string;           (* the lines typed, one for each [input()] *)
  key_file : option string;      (* content of the key file when it can be read *)
  requested : list string        (* URLs fetched, oldest first *)
}.

(** How a call ends. *)
Inductive ending (A : Type) : Type :=
| Returns (a : A) (s : session)
| SystemExit (s : session)       (* [sys.exit(1)] *)
| EOFError (s : session).        (* [input()] with nothing left to read *)
Arguments Returns {A} a s.
Arguments SystemExit {A} s.
Arguments EOFError {A} s.

Definition set_key (key url : string) (s : session) : session :=
  mkSession key url (stdin s) (key_file s) (requested s).

(** [input(prompt)] *)
Definition input (s : session) : ending string :=
  match stdin s with
  | [] => EOFError s
  | line :: rest =>
      Returns line
        (mkSession (GOOGLE_API_KEY s) (GOOGLE_API_URL s) rest (key_file s) (requested s))
  end.

Section Index.

(** The environment variable [GOOGLE_FONTS_API_KEY]. *)
Variable env_key : option string.

(** Whether the key file can be written. *)
Variable key_file_writable : bool.

(** The index endpoint: the answer to a GET on a URL. *)
Variable server : string -> api_response.

Definition write_key_file (api_key : string) (s : session) : session :=
  if key_file_writable
  then mkSession (GOOGLE_API_KEY s) (GOOGLE_API_URL s) (stdin s) (Some api_key)
         (requested s)
  else s.

(** font.py, [get_google_fonts_api_key].  The statement that reads the
    answer to the question about saving is written with a colon before
    [strip]; it is read as the method call. *)
Definition get_google_fonts_api_key (s : session) : ending string :=
  if truthy (GOOGLE_API_KEY s) then Returns (GOOGLE_API_KEY s) s
  else
    match if_true env_key, key_file s with
    | Some k, _ => Returns k (set_key k (format_key (GOOGLE_API_URL s) k) s)
    | None, Some content =>
        let k := strip content in
        Returns k (set_key k (format_key (GOOGLE_API_URL s) k) s)
    | None, None =>
        match input s with
        | Returns line s1 =>
            let api_key := strip line in
            if negb (truthy api_key) then SystemExit s1
            else
              match input s1 with
              | Returns answer s2 =>
                  let save_key := lower (strip answer) in
                  let s3 :=
                    if String.eqb save_key "y" || String.eqb save_key "yes"
                    then write_key_file api_key s2 else s2 in
                  Returns api_key
                    (set_key api_key (format_key (GOOGLE_API_URL s3) api_key) s3)
              | SystemExit s2 => SystemExit s2
              | EOFError s2 => EOFError s2
              end
        | SystemExit s1 => SystemExit s1
        | EOFError s1 => EOFError s1
        end
    end.

(** [requests.get(GOOGLE_API_URL)] *)
Definition fetch (s : session) : api_response * session :=
  (server (GOOGLE_API_URL s),
   mkSession (GOOGLE_API_KEY s) (GOOGLE_API_URL s) (stdin s) (key_file s)
     (requested s ++ [GOOGLE_API_URL s])).

(** font.py, [get_google_fonts_index].  The function calls itself after a
    new key is typed; [fuel] bounds the depth of these calls, and [None] is
    the answer of a run that needs more. *)
Fixpoint get_google_fonts_index (fuel : nat) (s : session)
  : option (ending (gmap string (option (list string)))) :=
  match fuel with
  | O => None
  | S fuel' =>
      match get_google_fonts_api_key s with
      | SystemExit s1 => Some (SystemExit s1)
      | EOFError s1 => Some (Returns ∅ s1)
      | Returns _ s1 =>
          let '(response, s2) := fetch s1 in
          match response with
          | RequestFailed => Some (Returns ∅ s2)
          | Status code items =>
              if is_http_error code then
                if (code =? 403)%N then
                  match input s2 with
                  | Returns line s3 =>
                      let new_key := strip line in
                      if truthy new_key
                      then get_google_fonts_index fuel' (set_key new_key (api_url new_key) s3)
                      else Some (Returns ∅ s3)
                  | SystemExit s3 => Some (SystemExit s3)
                  | EOFError s3 => Some (EOFError s3)
                  end
                else Some (Returns ∅ s2)
              else
                match items with
                | Some fonts => Some (Returns (index_of fonts) s2)
                | None => Some (Returns ∅ s2)
                end
          end
      end
  end.

(** A line typed as a new key that is not empty and that the endpoint
    refuses with 403. *)
Definition refused (line : string) : Prop :=
  truthy (strip line) = true /\
  exists items, server (api_url (strip line)) = Status 403 items.

End Index.

(** An endpoint that knows one key, and a session that starts with another
    key while two more are typed. *)
Definition sample_items : list (string * option (list string)) :=
  [("Inter", Some ["regular"; "700"])].

Definition sample_server (url : string) : api_response :=
  if String.eqb url (api_url "good") then Status 200 (Some sample_items)
  else Status 403 None.

Definition sample_session : session :=
  mkSession "bad1" (api_url "bad1") ["bad2"; "good"] None [].

(** The session of a program that starts: no key yet, the URL still with its
    replacement field, nothing requested. *)
Definition initial_session (typed : list string) (key_file : option string) : session :=
  mkSession "" API_URL_TEMPLATE typed key_file [].

(** * More of the program *)

From stdpp Require Import sorting.

(** The session in which a call ends. *)
Definition ending_session {A : Type} (e : ending A) : session :=
  match e with
  | Returns _ s => s
  | SystemExit s => s
  | EOFError s => s
  end.

(** ** The plan of downloads (font.py, [scan_all], lines 525-554)

    [missing_fonts] is a dict from the family to its styles and to the name
    it was matched to, if any; it is listed here in the order of its keys,
    which are distinct. *)

Record plan : Type := mkPlan {
  to_download : list (string * (list string * list string * option string));
    (* family, styles, variants, matched name; the source is Google Fonts *)
  alternative_sources : list (string * (list string * reference * option string));
    (* family, styles, reference, matched name *)
  unavailable : list (string * list string)
}.

Section Plan.

Context {W : Type}.
Variables search_1001fonts search_dafont search_freefont
  : string -> W -> option string * W.

(** What the loop stores for a family, by what was found for it. *)
Definition plan_add (acc : plan) (entry : string * (list string * option string))
    (r : resolution) : plan :=
  let '(font, (styles, matched)) := entry in
  match r with
  | FromGoogle variants =>
      mkPlan (to_download acc ++ [(font, (styles, variants, matched))])
        (alternative_sources acc) (unavailable acc)
  | FromAlternative alt_source =>
      mkPlan (to_download acc)
        (alternative_sources acc ++ [(font, (styles, alt_source, matched))])
        (unavailable acc)
  | Unavailable =>
      mkPlan (to_download acc) (alternative_sources acc)
        (unavailable acc ++ [(font, styles)])
  end.

Definition plan_one (google_fonts_index : gmap string (option (list string)))
    (acc : plan) (entry : string * (list string * option string))
  : net plan :=
  bind (resolve_missing search_1001fonts search_dafont search_freefont
          google_fonts_index entry.1)
    (fun r => ret (plan_add acc entry r)).

Fixpoint plan_from (google_fonts_index : gmap string (option (list string)))
    (acc : plan) (missing_fonts : list (string * (list string * option string)))
  : net plan :=
  match missing_fonts with
  | [] => ret acc
  | entry :: rest =>
      bind (plan_one google_fonts_index acc entry)
        (fun acc' => plan_from google_fonts_index acc' rest)
  end.

Definition plan_downloads (google_fonts_index : gmap string (option (list string)))
    (missing_fonts : list (string * (list string * option string))) : net plan :=
  plan_from google_fonts_index (mkPlan [] [] []) missing_fonts.

End Plan.

(** The source labels of the chain, in its order. *)
Definition provider_labels : list string := ["1001Fonts"; "DaFont"; "FreeFonts.io"].

(** The families listed by a plan, in its three parts. *)
Definition planned (p : plan) : list string :=
  (to_download p).*1 ++ (alternative_sources p).*1 ++ (unavailable p).*1.

(** ** Sorting the requirements into three lists (font.py, [scan_all],
    lines 431-485)

    The loop is written twice in the code, with and without the messages of
    the verbose mode; the two copies fill the lists in the same way. *)

Record classification : Type := mkClassification {
  available : list (string * string);
  style_missing : list (string * string * string);     (* name, style, matched name *)
  completely_missing : list (string * string)
}.

Section Classify.

Variable bundled_fonts : gset string.
Variable system_fonts : gset string.
Variables lowercase_map normalized_map : gmap string string.
Variable installed_styles : gmap string (list string).

Definition classify_one (acc : classification) (req : string * string)
  : classification :=
  let '(name, style) := req in
  if bool_decide (name ∈ bundled_fonts) then
    mkClassification (available acc ++ [(name, style)]) (style_missing acc)
      (completely_missing acc)
  else
    let r := is_font_installed name style system_fonts lowercase_map normalized_map
               (Some installed_styles) in
    if font_installed r then
      if style_available r then
        mkClassification (available acc ++ [(name, style)]) (style_missing acc)
          (completely_missing acc)
      else
        mkClassification (available acc)
          (style_missing acc ++ [(name, style, matched_name r)])
          (completely_missing acc)
    else
      mkClassification (available acc) (style_missing acc)
        (completely_missing acc ++ [(name, style)]).

Definition classify (required_fonts : list (string * string)) : classification :=
  foldl classify_one (mkClassification [] [] []) required_fonts.

(** The tests that send a requirement to each list. *)
Definition is_available (req : string * string) : bool :=
  let r := is_font_installed req.1 req.2 system_fonts lowercase_map normalized_map
             (Some installed_styles) in
  bool_decide (req.1 ∈ bundled_fonts) || (font_installed r && style_available r).

Definition is_style_missing (req : string * string) : bool :=
  let r := is_font_installed req.1 req.2 system_fonts lowercase_map normalized_map
             (Some installed_styles) in
  negb (bool_decide (req.1 ∈ bundled_fonts)) && font_installed r &&
  negb (style_available r).

Definition is_completely_missing (req : string * string) : bool :=
  let r := is_font_installed req.1 req.2 system_fonts lowercase_map normalized_map
             (Some installed_styles) in
  negb (bool_decide (req.1 ∈ bundled_fonts)) && negb (font_installed r).

End Classify.

(** An element of the list [missing]: a triple for a font whose style is
    missing, a pair for a font that is missing altogether. *)
Inductive missing_info : Type :=
| StyleMissing (name style matched_name : string)
| CompletelyMissing (name style : string).

Definition info_name (info : missing_info) : string :=
  match info with
  | StyleMissing name _ _ => name
  | CompletelyMissing name _ => name
  end.

Definition info_style (info : missing_info) : string :=
  match info with
  | StyleMissing _ style _ => style
  | CompletelyMissing _ style => style
  end.

(** [missing = style_missing + completely_missing] *)
Definition missing_of (c : classification) : list missing_info :=
  map (fun t => StyleMissing t.1.1 t.1.2 t.2) (style_missing c) ++
  map (fun p => CompletelyMissing p.1 p.2) (completely_missing c).

(** The loop that groups [missing] by family (lines 511-523): the dict
    [missing_fonts], as the list of its items in the order of insertion. *)
Fixpoint append_style (name style : string)
    (missing_fonts : list (string * (list string * option string)))
  : list (string * (list string * option string)) :=
  match missing_fonts with
  | [] => []
  | (key, (styles, matched)) :: rest =>
      if String.eqb key name then (key, (styles ++ [style], matched)) :: rest
      else (key, (styles, matched)) :: append_style name style rest
  end.

Definition group_one (missing_fonts : list (string * (list string * option string)))
    (info : missing_info) : list (string * (list string * option string)) :=
  let name := info_name info in
  let matched :=
    match info with
    | StyleMissing _ _ matched_name => Some matched_name
    | CompletelyMissing _ _ => None
    end in
  let missing_fonts :=
    if bool_decide (name ∈ missing_fonts.*1) then missing_fonts
    else missing_fonts ++ [(name, ([], matched))] in
  append_style name (info_style info) missing_fonts.

Definition group_missing (missing : list missing_info)
  : list (string * (list string * option string)) :=
  foldl group_one [] missing.

(** [any(data[matched_name] is not None for data in missing_fonts.values())]:
    whether the question about replacing existing fonts is asked. *)
Definition asks_replace (missing_fonts : list (string * (list string * option string)))
  : bool :=
  existsb (fun e => match e.2.2 with Some _ => true | None => false end) missing_fonts.

(** [missing_fonts[name]], when [name] is a key. *)
Fixpoint dict_get {V : Type} (name : string) (d : list (string * V)) : option V :=
  match d with
  | [] => None
  | (key, v) :: rest => if String.eqb key name then Some v else dict_get name rest
  end.

(** The name a font was matched to, for an element of [missing]. *)
Definition info_matched (info : missing_info) : option string :=
  match info with
  | StyleMissing _ _ matched_name => Some matched_name
  | CompletelyMissing _ _ => None
  end.

(** ** The inventory of installed fonts (font.py,
    [get_system_fonts_with_styles]) *)

(** [s.startswith(prefix)] *)
Fixpoint startswith (s prefix : string) {struct prefix} : bool :=
  match prefix with
  | EmptyString => true
  | String a prefix' =>
      match s with
      | EmptyString => false
      | String b s' => Ascii.eqb a b && startswith s' prefix'
      end
  end.

(** [needle in s] *)
Fixpoint contains (needle s : string) : bool :=
  startswith s needle ||
  match s with
  | EmptyString => false
  | String _ s' => contains needle s'
  end.

(** The style read off a name (lines 306-315 and 338-348). *)
Definition detect_style (name : string) : string :=
  let name_lower := lower name in
  if contains "bold" name_lower && contains "italic" name_lower then "Bold Italic"
  else if contains "bold" name_lower then "Bold"
  else if contains "italic" name_lower then "Italic"
  else if contains "light" name_lower then "Light"
  else "Regular".

Record inventory : Type := mkInventory {
  installed_fonts : gset string;
  lowercase_of : gmap string string;          (* [lowercase_map] *)
  font_styles : gmap string (list string)
}.

Definition empty_inventory : inventory := mkInventory ∅ ∅ ∅.

(** What both loops do with a name they keep. *)
Definition add_font (inv : inventory) (name : string) : inventory :=
  mkInventory ({[name]} ∪ installed_fonts inv)
    (<[lower name := name]> (lowercase_of inv))
    (<[name := default [] (font_styles inv !! name) ++ [detect_style name]]>
       (font_styles inv)).

(** An item of the system profiler, by its [_name] field. *)
Definition add_profiler_item (inv : inventory) (item : option string) : inventory :=
  match if_true item with
  | Some name => add_font inv name
  | None => inv
  end.

(** A font file of one of the font directories, by its stem. *)
Definition add_font_file (inv : inventory) (font_name : string) : inventory :=
  if bool_decide (font_name ∈ installed_fonts inv) then inv
  else add_font inv font_name.

(** [system] is [platform.system()]; [profiler] is the list of the items
    that the system profiler prints, each by its [_name] field, and [None]
    when running it raises a [SubprocessError] or its output is not JSON: both
    happen before the first font is recorded, and both are caught;
    [font_files] lists the stems of the font files of the three font
    directories, in the order of the traversal, which is taken to succeed. *)
Definition get_system_fonts_with_styles (system : string)
    (profiler : option (list (option string))) (font_files : list string)
  : inventory :=
  if String.eqb system "Darwin" then
    match profiler with
    | Some items =>
        foldl add_font_file (foldl add_profiler_item empty_inventory items) font_files
    | None => empty_inventory
    end
  else empty_inventory.

(** An inventory read on macOS: three items of the profiler, one of them
    without a name, and two font files, one of them already listed. *)
Definition sample_inventory : inventory :=
  get_system_fonts_with_styles "Darwin"
    (Some [Some "Futura Bold"; None; Some "Inter"]) ["Inter"; "Menlo-Italic"].

(** The invariant of an inventory. *)
Definition inventory_ok (inv : inventory) : Prop :=
  dom (font_styles inv) = installed_fonts inv /\
  (forall name styles, font_styles inv !! name = Some styles ->
     styles <> [] /\ Forall (fun s => s = detect_style name) styles) /\
  (forall key name, lowercase_of inv !! key = Some name ->
     name ∈ installed_fonts inv /\ lower name = key) /\
  (forall name, name ∈ installed_fonts inv -> is_Some (lowercase_of inv !! lower name)).

(** ** The requirements of a scan (font.py, [scan_all], line 412)

    [sorted(set(required_fonts))]: tuples compare by their first member and
    then by their second, strings by the codes of their characters. *)
Definition pair_le (a b : string * string) : Prop :=
  (a.1 <> b.1 /\ String.le a.1 b.1) \/ (a.1 = b.1 /\ String.le a.2 b.2).

Global Instance pair_le_dec : RelDecision pair_le.
Proof. intros a b. unfold pair_le. apply _. Defined.

Definition sorted_set (required_fonts : list (string * string))
  : list (string * string) :=
  merge_sort pair_le (remove_dups required_fonts).

(** ** Choosing the path to scan (font.py, [select_resolve_path])

    A path is the text it is made from.  [stdin] holds the lines typed.
    Counting the files of the default paths, which comes before the loop, is
    taken to succeed. *)

Inductive selection : Type :=
| Selected (path : string) (rest : list string)
| SelectionEOF.                   (* [input()] raises and nothing catches it *)

(** [Path(custom_path) if custom_path else Path(.)] *)
Definition path_or_here (custom_path : string) : string :=
  if truthy custom_path then custom_path else ".".

(** The loop [while True]: an exception raised in its body, the end of the
    input among them, is printed and the loop goes on.  [None] is a loop that
    is still running when the fuel is used up. *)
Fixpoint select_loop (fuel : nat) (first_default : string) (stdin : list string)
  : option selection :=
  match fuel with
  | O => None
  | S fuel' =>
      match stdin with
      | [] => select_loop fuel' first_default []
      | line :: rest =>
          let choice := strip line in
          if String.eqb choice "1" then Some (Selected first_default rest)
          else if String.eqb choice "2" then
            match rest with
            | [] => select_loop fuel' first_default []
            | answer :: rest' => Some (Selected (path_or_here (strip answer)) rest')
            end
          else select_loop fuel' first_default rest
      end
  end.

Definition select_resolve_path (fuel : nat) (default_paths : list string)
    (stdin : list string) : option selection :=
  match default_paths with
  | [] =>
      match stdin with
      | [] => Some SelectionEOF
      | answer :: rest => Some (Selected (path_or_here (strip answer)) rest)
      end
  | first_default :: _ => select_loop fuel first_default stdin
  end.

(** A line that is neither of the two choices. *)
Definition not_a_choice (line : string) : Prop :=
  strip line <> "1" /\ strip line <> "2".

(** * Properties *)

(** ** Characters and strings *)

Lemma char_lower_upper (c : ascii) : char_lower (char_upper c) = char_lower c.
Proof. destruct c as [[] [] [] [] [] [] [] []]; reflexivity. Qed.

Lemma lower_upper (s : string) : lower (upper s) = lower s.
Proof.
  induction s as [|c s IH]; simpl; [reflexivity|].
  unfold lower, upper in *. simpl. now rewrite char_lower_upper, IH.
Qed.

Lemma lower_alnum_word (c : ascii) : is_lower_alnum c = true -> is_word c = true.
Proof. destruct c as [[] [] [] [] [] [] [] []]; vm_compute; congruence. Qed.

Lemma lower_alnum_not_space (c : ascii) : is_lower_alnum c = true -> is_space c = false.
Proof. destruct c as [[] [] [] [] [] [] [] []]; vm_compute; congruence. Qed.

Lemma lower_alnum_char_lower (c : ascii) : is_lower_alnum c = true -> char_lower c = c.
Proof. destruct c as [[] [] [] [] [] [] [] []]; vm_compute; congruence. Qed.

Lemma sall_cons (p : ascii -> bool) (c : ascii) (s : string) :
  sall p (String c s) = true <-> p c = true /\ sall p s = true.
Proof. simpl. apply andb_true_iff. Qed.

Lemma sall_sfilter (p : ascii -> bool) (s : string) : sall p (sfilter p s) = true.
Proof.
  induction s as [|c s IH]; simpl; [reflexivity|].
  destruct (p c) eqn:E; simpl; [now rewrite E|exact IH].
Qed.

Lemma sfilter_all (p : ascii -> bool) (s : string) :
  sall p s = true -> sfilter p s = s.
Proof.
  induction s as [|c s IH]; simpl; [reflexivity|].
  intros [Hc Hs]%andb_true_iff. now rewrite Hc, IH.
Qed.

Lemma sall_impl (p q : ascii -> bool) (s : string) :
  (forall c, p c = true -> q c = true) -> sall p s = true -> sall q s = true.
Proof.
  intros Hpq. induction s as [|c s IH]; simpl; [reflexivity|].
  intros [Hc Hs]%andb_true_iff. now rewrite (Hpq _ Hc), IH.
Qed.

Lemma lower_all_lower_alnum (s : string) :
  sall is_lower_alnum s = true -> lower s = s.
Proof.
  unfold lower. induction s as [|c s IH]; simpl; [reflexivity|].
  intros [Hc Hs]%andb_true_iff. now rewrite lower_alnum_char_lower, IH.
Qed.

Lemma rstrip_no_space (s : string) :
  sall is_lower_alnum s = true -> rstrip s = s.
Proof.
  induction s as [|c s IH]; simpl; [reflexivity|].
  intros [Hc Hs]%andb_true_iff.
  now rewrite (lower_alnum_not_space _ Hc), IH.
Qed.

Lemma strip_no_space (s : string) :
  sall is_lower_alnum s = true -> strip s = s.
Proof.
  intros H. unfold strip.
  assert (lstrip s = s) as ->.
  { destruct s as [|c s]; simpl in *; [reflexivity|].
    apply andb_true_iff in H as [Hc _]. now rewrite (lower_alnum_not_space _ Hc). }
  now apply rstrip_no_space.
Qed.

(** What [normalize_font_name] returns is made of [a-z0-9] only. *)
Lemma normalize_font_name_alnum (name : string) :
  sall is_lower_alnum (normalize_font_name name) = true.
Proof.
  unfold normalize_font_name.
  rewrite strip_no_space; apply sall_sfilter.
Qed.

(** ** The token pattern on a text of word characters *)

Lemma next_is_word_all (s : string) :
  sall is_word s = true -> Re.next_is_word s = negb (is_empty s).
Proof. destruct s as [|c s]; simpl; [reflexivity|]. now intros [-> _]%andb_true_iff. Qed.

Lemma string_eqb_empty (s : string) : String.eqb s "" = is_empty s.
Proof. now destruct s. Qed.

(** A literal followed by [\b], inside a text of word characters, matches
    only the whole text. *)
Lemma match_lit_then_boundary {R : Type} (f : bool -> string -> R) (t : string) :
  forall (w : bool) (s : string),
    sall is_word s = true ->
    (w = true \/ t <> "") ->
    match Re.match_lit t w s with
    | Some (w', s') => if Re.at_boundary w' s' then Some (f w' s') else None
    | None => None
    end = if String.eqb s t then Some (f true "") else None.
Proof.
  induction t as [|a t IH]; intros w s Hs Hw; simpl.
  - destruct Hw as [->|]; [|congruence].
    unfold Re.at_boundary. rewrite (next_is_word_all _ Hs), string_eqb_empty.
    now destruct s.
  - destruct s as [|b s]; [reflexivity|].
    apply andb_true_iff in Hs as [Hb Hs]. rewrite Hb.
    cbn [String.eqb]. rewrite (Ascii.eqb_sym b a).
    destruct (Ascii.eqb a b); [|reflexivity].
    apply IH; auto.
Qed.

Lemma slice_to_all (s : string) : slice_to (String.length s) s = s.
Proof. induction s as [|c s IH]; simpl; [reflexivity|]. now rewrite IH. Qed.

Lemma consumed_all (s : string) : Re.consumed s "" = s.
Proof. unfold Re.consumed. simpl. rewrite Nat.sub_0_r. apply slice_to_all. Qed.

Lemma match_here_token_start (s : string) :
  sall is_word s = true ->
  Re.match_here token_re false s =
    if is_token s then Some (true, "", Some s) else None.
Proof.
  intros Hs. unfold Re.match_here, token_re. cbn [Re.rmatch].
  unfold Re.at_boundary at 1. rewrite (next_is_word_all _ Hs). simpl xorb.
  destruct s as [|c s]; [reflexivity|]. cbn [is_empty negb].
  set (s0 := String c s) in *.
  assert (Hlit : forall t, t <> "" ->
    match Re.match_lit t false s0 with
    | Some (w', s') =>
        if Re.at_boundary w' s' then Some (w', s', Some (Re.consumed s0 s')) else None
    | None => None
    end = if String.eqb s0 t then Some (true, "", Some s0) else None).
  { intros t Ht.
    pose proof (match_lit_then_boundary
                  (fun w' s' => (w', s', Some (Re.consumed s0 s'))) t false s0 Hs
                  (or_intror Ht)) as H.
    cbv beta in H. now rewrite consumed_all in H. }
  rewrite !Hlit by discriminate.
  unfold is_token, name_tokens. cbn [existsb].
  repeat (destruct (String.eqb s0 _); [reflexivity|]); reflexivity.
Qed.

(** Past a word character, inside a text of word characters, the token
    pattern does not match. *)
Lemma match_here_token_inside (s : string) :
  sall is_word s = true -> Re.match_here token_re true s = None.
Proof.
  intros Hs. destruct s as [|c s]; [reflexivity|].
  apply andb_true_iff in Hs as [Hc _].
  unfold Re.match_here, token_re. cbn [Re.rmatch].
  unfold Re.at_boundary at 1. simpl. now rewrite Hc.
Qed.

Lemma sub_go_token_inside (fuel : nat) :
  forall s, sall is_word s = true -> Re.sub_go fuel token_re "" true s = s.
Proof.
  induction fuel as [|fuel IH]; intros s Hs; [reflexivity|].
  cbn [Re.sub_go]. rewrite (match_here_token_inside _ Hs).
  destruct s as [|c s]; [reflexivity|].
  apply andb_true_iff in Hs as [Hc Hs]. now rewrite Hc, IH.
Qed.

(** On a text of word characters the substitution removes the text when it
    is one of the tokens and leaves it as it is otherwise. *)
Lemma sub_token_word_text (s : string) :
  sall is_word s = true ->
  Re.sub token_re "" s = if is_token s then "" else s.
Proof.
  intros Hs. unfold Re.sub. cbn [Re.sub_go].
  rewrite (match_here_token_start _ Hs).
  destruct (is_token s) eqn:Htok.
  - destruct s as [|c s]; [reflexivity|].
    simpl String.length. cbn [Nat.ltb Nat.leb].
    now rewrite sub_go_token_inside.
  - destruct s as [|c s]; [reflexivity|].
    apply andb_true_iff in Hs as [Hc Hs]. now rewrite Hc, sub_go_token_inside.
Qed.

Lemma normalize_font_name_twice (x : string) :
  normalize_font_name (normalize_font_name x) =
    if is_token (normalize_font_name x) then "" else normalize_font_name x.
Proof.
  pose proof (normalize_font_name_alnum x) as Hy.
  set (y := normalize_font_name x) in *.
  unfold normalize_font_name at 1.
  rewrite (lower_all_lower_alnum _ Hy).
  rewrite sub_token_word_text by (eapply sall_impl; [apply lower_alnum_word|exact Hy]).
  destruct (is_token y); [reflexivity|].
  rewrite (sfilter_all _ _ Hy). now apply strip_no_space.
Qed.

Lemma is_token_spec (s : string) : is_token s = true <-> s ∈ name_tokens.
Proof.
  unfold is_token. rewrite existsb_exists. split.
  - intros (t & Ht & ->%String.eqb_eq). now apply list_elem_of_In.
  - intros Hs. exists s. split; [now apply list_elem_of_In|apply String.eqb_refl].
Qed.

(** ** Name normalisation *)

(** C2, as the claim states it, fails on idempotence: the text P-S has no
    token between word boundaries and normalises to ps, which is itself a
    token and normalises to the empty text. *)
Lemma normalize_font_name_not_idempotent :
  normalize_font_name "P-S" = "ps" /\
  normalize_font_name (normalize_font_name "P-S") = "".
Proof. split; vm_compute; reflexivity. Qed.

(** C2 (amended): normalising twice gives the same text as normalising once
    unless the normalised text is one of the nine tokens, in which case the
    second pass gives the empty text; and for ASCII text the normalised name
    of [x.upper()] is that of [x]. *)
Theorem normalize_font_name_twice_and_case (x : string) :
  normalize_font_name (normalize_font_name x) =
    (if bool_decide (normalize_font_name x ∈ name_tokens)
     then "" else normalize_font_name x) /\
  (sall is_ascii x = true ->
   normalize_font_name (upper x) = normalize_font_name x).
Proof.
  split.
  - rewrite normalize_font_name_twice.
    destruct (is_token (normalize_font_name x)) eqn:Htok.
    + apply is_token_spec in Htok. now rewrite bool_decide_eq_true_2.
    + rewrite bool_decide_eq_false_2; [reflexivity|].
      intros Hin%is_token_spec. congruence.
  - intros _. unfold normalize_font_name. now rewrite lower_upper.
Qed.

Lemma normalize_font_name_twice_and_case_witness :
  sall is_ascii "Arial Bold MT" = true /\
  normalize_font_name (upper "Arial Bold MT") = normalize_font_name "Arial Bold MT" /\
  normalize_font_name (normalize_font_name "Arial Bold MT") = "arial".
Proof.
  split; [reflexivity|]. split.
  - apply (proj2 (normalize_font_name_twice_and_case "Arial Bold MT")). reflexivity.
  - rewrite (proj1 (normalize_font_name_twice_and_case "Arial Bold MT")). reflexivity.
Defined.

(** ** The normalised-name map *)

Lemma build_normalized_map_snoc (order : list string) (font : string) :
  build_normalized_map (order ++ [font]) =
    normalized_map_step (build_normalized_map order) font.
Proof. unfold build_normalized_map. now rewrite foldl_app. Qed.

(** The map holds, for every key, the last name of the iteration that has
    this key; the empty key is not stored. *)
Lemma build_normalized_map_lookup (order : list string) (key : string) :
  build_normalized_map order !! key =
    if truthy key
    then last (filter (fun font => normalize_font_name font = key) order)
    else None.
Proof.
  induction order as [|font order IH] using rev_ind.
  - unfold build_normalized_map. cbn [foldl filter list_filter last].
    rewrite lookup_empty. now destruct (truthy key).
  - rewrite build_normalized_map_snoc, filter_app. unfold normalized_map_step.
    destruct (decide (normalize_font_name font = key)) as [Heq|Hne].
    + rewrite filter_cons_True, filter_nil by exact Heq.
      rewrite last_snoc, Heq.
      destruct (truthy key) eqn:Hk; [apply lookup_insert_eq|].
      rewrite IH. reflexivity.
    + rewrite filter_cons_False, filter_nil, app_nil_r by exact Hne.
      destruct (truthy (normalize_font_name font)); [|exact IH].
      now rewrite lookup_insert_ne.
Qed.

(** C3, as the claim states it, fails: Arial Bold and Arial both have the
    key arial; with Arial Bold iterated first the map holds Arial, and with
    Arial iterated first it holds Arial Bold: the name seen last, in either
    order. *)
Lemma normalized_map_first_seen_replaced :
  normalize_font_name "Arial Bold" = "arial" /\
  normalize_font_name "Arial" = "arial" /\
  build_normalized_map ["Arial Bold"; "Arial"] !! "arial" = Some "Arial" /\
  build_normalized_map ["Arial"; "Arial Bold"] !! "arial" = Some "Arial Bold".
Proof. repeat split; vm_compute; reflexivity. Qed.

(** C3 (amended): when two distinct names of the iteration have the same
    non-empty key, and no name after the second has it, the map holds the
    second: a later colliding name replaces the stored mapping. *)
Theorem normalized_map_last_seen_wins
    (before between after : list string) (first second : string) :
  first <> second ->
  normalize_font_name first = normalize_font_name second ->
  truthy (normalize_font_name first) = true ->
  Forall (fun font => normalize_font_name font <> normalize_font_name first) after ->
  build_normalized_map (before ++ first :: between ++ second :: after)
    !! normalize_font_name first = Some second.
Proof.
  intros _ Hkey Htrue Hafter.
  rewrite build_normalized_map_lookup, Htrue.
  replace (before ++ first :: between ++ second :: after)
    with ((before ++ first :: between) ++ [second] ++ after)
    by (now rewrite <- !app_assoc).
  rewrite !filter_app.
  rewrite (filter_cons_True _ second) by (now symmetry).
  rewrite filter_nil.
  assert (filter (fun font => normalize_font_name font = normalize_font_name first) after = [])
    as ->.
  { induction Hafter as [|font after Hne _ IH]; [reflexivity|].
    now rewrite filter_cons_False. }
  rewrite app_nil_r. apply last_snoc.
Qed.

Lemma normalized_map_last_seen_wins_witness :
  build_normalized_map (["Inter"] ++ "Arial Bold" :: ["Futura"] ++ "Arial" :: ["Bold"])
    !! normalize_font_name "Arial Bold" = Some "Arial".
Proof.
  apply normalized_map_last_seen_wins.
  - discriminate.
  - reflexivity.
  - reflexivity.
  - repeat constructor. vm_compute. discriminate.
Defined.

(** ** Name matcher *)

Section Matcher.

Variables (font_name style : string) (system_fonts : gset string).
Variables (lowercase_map normalized_map : gmap string string).

(** The three tests of [is_font_installed], in the order of the code. *)
Ltac matcher_cases :=
  unfold is_font_installed;
  destruct (bool_decide (font_name ∈ system_fonts)),
    (lowercase_map !! lower font_name),
    (normalized_map !! normalize_font_name font_name).

(** The first three components do not depend on the style map. *)
Lemma is_font_installed_family (installed_styles : option (gmap string (list string))) :
  let r := is_font_installed font_name style system_fonts lowercase_map
             normalized_map installed_styles in
  let r0 := is_font_installed font_name style system_fonts lowercase_map
              normalized_map None in
  font_installed r = font_installed r0 /\
  match_type r = match_type r0 /\
  matched_name r = matched_name r0.
Proof.
  cbv zeta. matcher_cases; destruct installed_styles; cbn;
    repeat match goal with |- context [if ?b then _ else _] => destruct b end;
    auto.
Qed.

(** C6: a name that is in the set of installed fonts is reported as an exact
    match, whatever the two other maps hold; otherwise a key of the
    lower-case map gives a case-insensitive match, and only after that a key
    of the normalised map gives a normalised match. *)
Theorem is_font_installed_precedence
    (installed_styles : option (gmap string (list string))) :
  let r := is_font_installed font_name style system_fonts lowercase_map
             normalized_map installed_styles in
  (font_name ∈ system_fonts ->
     font_installed r = true /\ match_type r = "exact match" /\
     matched_name r = font_name) /\
  (font_name ∉ system_fonts ->
     forall name, lowercase_map !! lower font_name = Some name ->
     font_installed r = true /\ match_type r = "case-insensitive match" /\
     matched_name r = name) /\
  (font_name ∉ system_fonts -> lowercase_map !! lower font_name = None ->
     forall name, normalized_map !! normalize_font_name font_name = Some name ->
     font_installed r = true /\ match_type r = "normalized match" /\
     matched_name r = name) /\
  (font_name ∉ system_fonts -> lowercase_map !! lower font_name = None ->
     normalized_map !! normalize_font_name font_name = None ->
     font_installed r = false /\ match_type r = "" /\ matched_name r = "").
Proof.
  cbv zeta.
  destruct (is_font_installed_family installed_styles) as (-> & -> & ->).
  unfold is_font_installed.
  repeat split; intros.
  all: repeat match goal with
       | H : _ ∈ _ |- _ => rewrite (bool_decide_eq_true_2 _ H)
       | H : _ ∉ _ |- _ => rewrite (bool_decide_eq_false_2 _ H)
       | H : _ !! _ = _ |- _ => rewrite H
       end; reflexivity.
Qed.

(** C7: with a style map, for a family that is found, the style flag is
    true exactly when the style asked for, or Regular, is among the styles
    that the map gives for the matched name (none when the name is not a key
    of the map). *)
Theorem style_available_iff (styles_of : gmap string (list string)) :
  let r := is_font_installed font_name style system_fonts lowercase_map
             normalized_map (Some styles_of) in
  font_installed r = true ->
  (style_available r = true <->
   style ∈ default [] (styles_of !! matched_name r) \/
   "Regular" ∈ default [] (styles_of !! matched_name r)).
Proof.
  cbv zeta. matcher_cases; cbn; try discriminate; intros _.
  all: match goal with
       | |- context [bool_decide (style ∈ ?l)] =>
           destruct (bool_decide_reflect (style ∈ l)),
             (bool_decide_reflect ("Regular" ∈ l)); cbn; intuition congruence
       end.
Qed.

(** C10: without a style map the style flag is false, whether the family
    is found or not; a true flag needs a style map. *)
Theorem style_available_needs_style_map :
  style_available
    (is_font_installed font_name style system_fonts lowercase_map
       normalized_map None) = false /\
  (forall installed_styles,
     style_available
       (is_font_installed font_name style system_fonts lowercase_map
          normalized_map installed_styles) = true ->
     is_Some installed_styles).
Proof.
  assert (Hnone : style_available
    (is_font_installed font_name style system_fonts lowercase_map
       normalized_map None) = false).
  { matcher_cases; reflexivity. }
  split; [exact Hnone|].
  intros [styles_of|] H; [eauto|congruence].
Qed.

End Matcher.

Lemma is_font_installed_precedence_witness :
  "Inter" ∈ ({["Inter"; "inter"]} : gset string) /\
  match_type
    (is_font_installed "Inter" "Bold" {["Inter"; "inter"]}
       {["inter" := "inter"]} {["inter" := "inter"]}
       (Some {["Inter" := ["Regular"]]})) = "exact match".
Proof.
  assert (H : "Inter" ∈ ({["Inter"; "inter"]} : gset string)) by set_solver.
  split; [exact H|].
  apply (proj1 (is_font_installed_precedence "Inter" "Bold" {["Inter"; "inter"]}
                  {["inter" := "inter"]} {["inter" := "inter"]}
                  (Some {["Inter" := ["Regular"]]})) H).
Defined.

Lemma style_available_iff_witness :
  font_installed
    (is_font_installed "Futura" "Bold" {["futura"]} {["futura" := "futura"]} ∅
       (Some {["futura" := ["Regular"]]})) = true /\
  style_available
    (is_font_installed "Futura" "Bold" {["futura"]} {["futura" := "futura"]} ∅
       (Some {["futura" := ["Regular"]]})) = true.
Proof.
  split; [reflexivity|].
  apply (style_available_iff "Futura" "Bold" {["futura"]} {["futura" := "futura"]} ∅
           {["futura" := ["Regular"]]}); [reflexivity|].
  right. vm_compute. apply list_elem_of_here.
Defined.

Lemma style_available_needs_style_map_witness :
  is_Some (Some ({["Inter" := ["Regular"]]} : gmap string (list string))).
Proof.
  apply (proj2 (style_available_needs_style_map "Inter" "Bold" {["Inter"]} ∅ ∅)).
  reflexivity.
Defined.

(** ** Requirement extractor *)

Lemma pair_fonts_length (matches style_matches : list string) :
  forall i, length (pair_fonts i matches style_matches) = length matches.
Proof. induction matches as [|font rest IH]; intros i; simpl; [reflexivity|]. now rewrite IH. Qed.

Lemma pair_fonts_lookup (matches style_matches : list string) :
  forall (start i : nat) (font : string),
    matches !! i = Some font ->
    pair_fonts start matches style_matches !! i =
      Some (strip font,
            match style_matches !! (start + i)%nat with
            | Some style => strip style
            | None => "Regular"
            end).
Proof.
  induction matches as [|font0 rest IH]; intros start i font Hi; [discriminate|].
  destruct i as [|i]; simpl in *.
  - injection Hi as ->. rewrite Nat.add_0_r. do 2 f_equal.
    destruct (Nat.ltb_spec start (length style_matches)) as [Hlt|Hge].
    + destruct (lookup_lt_is_Some_2 style_matches start Hlt) as [style Hs].
      rewrite Hs. f_equal. rewrite nth_lookup, Hs. reflexivity.
    + now rewrite lookup_ge_None_2.
  - rewrite (IH (S start) i font Hi). now rewrite Nat.add_succ_r.
Qed.

(** C9: the i-th family found in the text is paired with the i-th style
    found in the text, both stripped of surrounding white space, and with
    Regular when the text has no i-th style; there are as many pairs as
    families.  The text is the one read as utf-8, or as latin-1 when that
    fails. *)
Theorem fonts_paired_by_position (file : read_result) (content : string) :
  let families := Re.findall font_re content in
  let styles := Re.findall style_re content in
  let fonts := parse_fonts_from_setting file in
  text_read file = Some content ->
  length fonts = length families /\
  forall (i : nat) (family : string),
    families !! i = Some family ->
    (forall style, styles !! i = Some style ->
       fonts !! i = Some (strip family, strip style)) /\
    (length styles <= i -> fonts !! i = Some (strip family, "Regular")).
Proof.
  cbv zeta. intros Hread.
  assert (parse_fonts_from_setting file = fonts_of_content content) as ->.
  { destruct file as [c| |[c|]|]; simpl in *; congruence. }
  unfold fonts_of_content. split.
  - apply pair_fonts_length.
  - intros i family Hi. rewrite (pair_fonts_lookup _ _ 0 i family Hi). simpl.
    split.
    + now intros style ->.
    + intros Hge. now rewrite lookup_ge_None_2.
Qed.

Lemma fonts_paired_by_position_witness :
  Re.findall font_re sample_setting = [" Inter"; "Futura"] /\
  Re.findall style_re sample_setting = ["Bold"] /\
  parse_fonts_from_setting (ReadText sample_setting) !! 0%nat = Some ("Inter", "Bold") /\
  parse_fonts_from_setting (ReadText sample_setting) !! 1%nat =
    Some ("Futura", "Regular").
Proof.
  split; [reflexivity|]. split; [reflexivity|]. split.
  - apply (proj1 (proj2 (fonts_paired_by_position (ReadText sample_setting)
                             sample_setting eq_refl) 0%nat " Inter" eq_refl)
             "Bold" eq_refl).
  - apply (proj2 (proj2 (fonts_paired_by_position (ReadText sample_setting)
                             sample_setting eq_refl) 1%nat "Futura" eq_refl)).
    vm_compute. lia.
Defined.

(** ** Installer *)

Section Install.

Variable fontTools : option (list byte -> option bool).
Variable replace_existing : bool.

Lemma install_fonts_from_temp_snoc (staged : list (string * list byte))
    (font_file : string * list byte) (dest : dir) :
  is_font_file font_file.1 = true ->
  install_fonts_from_temp fontTools replace_existing (staged ++ [font_file]) dest =
    install_one fontTools replace_existing
      (install_fonts_from_temp fontTools replace_existing staged dest) font_file.
Proof.
  intros Hf. unfold install_fonts_from_temp.
  rewrite filter_app, filter_cons_True, filter_nil by exact Hf.
  now rewrite foldl_app.
Qed.

(** C8: one staged font file, after any number of others.  [before] is the
    state in which its turn starts and [after] the state in which it ends. *)
Theorem install_policy (staged : list (string * list byte)) (dest0 : dir)
    (path : string) (data : list byte) :
  let before := install_fonts_from_temp fontTools replace_existing staged dest0 in
  let after := install_fonts_from_temp fontTools replace_existing
                 (staged ++ [(path, data)]) dest0 in
  let name := basename path in
  let variable := is_variable_font fontTools data in
  is_font_file path = true ->
  (is_Some (before.1 !! name) -> variable = false -> replace_existing = false ->
     after.1 = before.1 /\
     skipped_count after.2 = S (skipped_count before.2) /\
     installed_count after.2 = installed_count before.2 /\
     replaced_count after.2 = replaced_count before.2) /\
  (is_Some (before.1 !! name) -> variable = true \/ replace_existing = true ->
     after.1 = <[name := data]> before.1 /\
     replaced_count after.2 = S (replaced_count before.2) /\
     installed_count after.2 = installed_count before.2 /\
     skipped_count after.2 = skipped_count before.2) /\
  (before.1 !! name = None ->
     after.1 = <[name := data]> before.1 /\
     installed_count after.2 = S (installed_count before.2) /\
     replaced_count after.2 = replaced_count before.2 /\
     skipped_count after.2 = skipped_count before.2).
Proof.
  cbv zeta. intros Hf.
  rewrite (install_fonts_from_temp_snoc staged (path, data) dest0 Hf).
  destruct (install_fonts_from_temp fontTools replace_existing staged dest0)
    as [dest c].
  unfold install_one. cbn [fst snd].
  repeat split.
  all: intros;
    repeat match goal with
    | H : is_Some _ |- _ => rewrite (bool_decide_eq_true_2 _ H)
    | H : _ !! _ = None |- _ =>
        rewrite (bool_decide_eq_false_2 (is_Some _)) by (rewrite H; apply is_Some_None)
    | H : _ = false |- _ => rewrite H
    | H : _ \/ _ |- _ => destruct H
    | H : _ = true |- _ => rewrite H
    end; cbn; rewrite ?orb_true_r; cbn;
    try reflexivity;
    destruct (is_variable_font fontTools data); reflexivity.
Qed.

End Install.

Lemma install_policy_witness :
  let old := list_byte_of_string "old" in
  let new := list_byte_of_string "new" in
  let dest0 : dir := {["Inter.ttf" := old]} in
  is_font_file "fonts/Inter.ttf" = true /\
  (install_fonts_from_temp None false [("fonts/Inter.ttf", new)] dest0).1 = dest0 /\
  skipped_count
    (install_fonts_from_temp None false [("fonts/Inter.ttf", new)] dest0).2 = 1%nat /\
  (install_fonts_from_temp None true [("fonts/Inter.ttf", new)] dest0).1
    = <[ "Inter.ttf" := new ]> dest0 /\
  (install_fonts_from_temp None false [("fonts/Futura.otf", new)] dest0).1
    = <[ "Futura.otf" := new ]> dest0.
Proof.
  cbv zeta.
  pose proof (install_policy None false [] {["Inter.ttf" := list_byte_of_string "old"]}
                "fonts/Inter.ttf" (list_byte_of_string "new") eq_refl) as (Hskip & _ & _).
  pose proof (install_policy None true [] {["Inter.ttf" := list_byte_of_string "old"]}
                "fonts/Inter.ttf" (list_byte_of_string "new") eq_refl) as (_ & Hrep & _).
  pose proof (install_policy None false [] {["Inter.ttf" := list_byte_of_string "old"]}
                "fonts/Futura.otf" (list_byte_of_string "new") eq_refl) as (_ & _ & Hnew).
  cbv zeta in Hskip, Hrep, Hnew.
  specialize (Hskip ltac:(eexists; reflexivity) eq_refl eq_refl) as (H1 & H2 & _).
  specialize (Hrep ltac:(eexists; reflexivity) ltac:(right; reflexivity)) as (H3 & _).
  specialize (Hnew eq_refl) as (H4 & _).
  split; [reflexivity|].
  split; [exact H1|]. split; [exact H2|]. split; [exact H3|exact H4].
Defined.

(** ** Acquisition *)

Section Acquisition.

Variable unzip : list byte -> zip_result.

(** [download_font_from_alternative_source] fails on such a payload and
    leaves the staging font directory as it was. *)
Lemma alternative_source_rejects_unrecognized
    (font_name source_name style_info : string) (data : list byte) (st : staging) :
  unrecognized unzip data ->
  let r := download_font_from_alternative_source unzip font_name source_name
             style_info (Some data) st in
  r.1 = false /\ fonts_dir r.2 = fonts_dir st.
Proof.
  intros (Hzip & Hotf & Httf). cbv zeta.
  unfold download_font_from_alternative_source. rewrite Hzip, Hotf, Httf.
  split; reflexivity.
Qed.

(** [download_google_font] stages the same payload under the extension
    [.ttf] and succeeds. *)
Lemma google_font_stages_unrecognized
    (family style_info : string) (variants : option (list string))
    (data : list byte) (st : staging) :
  unrecognized unzip data ->
  let r := download_google_font unzip family style_info variants (Some data) st in
  r.1 = true /\ fonts_dir r.2 = <[family +:+ ".ttf" := data]> (fonts_dir st).
Proof.
  intros (Hzip & Hotf & Httf). cbv zeta.
  unfold download_google_font. rewrite Hzip, Hotf, Httf.
  split; reflexivity.
Qed.

End Acquisition.

(** C1: the code at a payload that is neither an archive nor a font.  The
    download from an alternative source fails and stages nothing, as the
    claim says; the download from Google Fonts returns success and stages the
    payload as Inter.ttf. *)
Theorem download_google_font_accepts_unrecognized_payload :
  let payload := list_byte_of_string "<html>Not Found</html>" in
  let unzip := fun _ : list byte => BadZipFile in
  let empty := mkStaging ∅ ∅ in
  unrecognized unzip payload /\
  (download_font_from_alternative_source unzip "Inter" "DaFont" "Regular"
     (Some payload) empty).1 = false /\
  fonts_dir (download_font_from_alternative_source unzip "Inter" "DaFont" "Regular"
     (Some payload) empty).2 = ∅ /\
  download_google_font unzip "Inter" "Regular" None (Some payload) empty
    = (true, mkStaging ∅ {["Inter.ttf" := payload]}).
Proof.
  cbv zeta. split; [repeat split|]. split; [reflexivity|]. split; [reflexivity|].
  vm_compute. reflexivity.
Qed.

(** ** Provider chain *)

Section ChainFacts.

Context {W : Type}.
Variables search_1001fonts search_dafont search_freefont
  : string -> W -> option string * W.

(** C5: the chain calls 1001Fonts first, DaFont second and FreeFonts.io
    third, stops at the first that returns a URL and labels the reference
    with that provider; the providers after it are not called (the list of
    the providers called ends with the one that answered, and the world is
    as that provider left it). *)
Theorem chain_order_and_short_circuit (font_name : string) (st : chain_state) :
  let chain := search_alternative_font_providers search_1001fonts search_dafont
                 search_freefont font_name st in
  let r1 := search_1001fonts font_name (world st) in
  let r2 := search_dafont font_name r1.2 in
  let r3 := search_freefont font_name r2.2 in
  (forall url, if_true r1.1 = Some url ->
     chain = (Some (mkReference url "1001Fonts"),
              mkChain r1.2 (consulted st ++ ["1001Fonts"]))) /\
  (if_true r1.1 = None -> forall url, if_true r2.1 = Some url ->
     chain = (Some (mkReference url "DaFont"),
              mkChain r2.2 (consulted st ++ ["1001Fonts"; "DaFont"]))) /\
  (if_true r1.1 = None -> if_true r2.1 = None ->
     forall url, if_true r3.1 = Some url ->
     chain = (Some (mkReference url "FreeFonts.io"),
              mkChain r3.2 (consulted st ++ ["1001Fonts"; "DaFont"; "FreeFonts.io"]))) /\
  (if_true r1.1 = None -> if_true r2.1 = None -> if_true r3.1 = None ->
     chain = (None,
              mkChain r3.2 (consulted st ++ ["1001Fonts"; "DaFont"; "FreeFonts.io"]))).
Proof.
  cbv zeta. unfold search_alternative_font_providers, bind, call, ret.
  destruct st as [w log]. cbn [world consulted].
  destruct (search_1001fonts font_name w) as [u1 w1]. cbn [fst snd world consulted].
  destruct (if_true u1) as [url1|].
  { repeat split; intros; simplify_eq; reflexivity. }
  cbn [world consulted].
  destruct (search_dafont font_name w1) as [u2 w2]. cbn [fst snd world consulted].
  destruct (if_true u2) as [url2|].
  { repeat split; intros; simplify_eq; rewrite <- ?app_assoc; reflexivity. }
  cbn [world consulted].
  destruct (search_freefont font_name w2) as [u3 w3]. cbn [fst snd world consulted].
  destruct (if_true u3) as [url3|];
    repeat split; intros; simplify_eq; rewrite <- ?app_assoc; reflexivity.
Qed.

(** With an empty index every missing family goes through the chain. *)
Lemma resolve_missing_empty_index (font : string) (st : chain_state) :
  resolve_missing search_1001fonts search_dafont search_freefont ∅ font st =
    let r := search_alternative_font_providers search_1001fonts search_dafont
               search_freefont font st in
    (match r.1 with
     | Some alt_source => FromAlternative alt_source
     | None => Unavailable
     end, r.2).
Proof.
  unfold resolve_missing. rewrite lookup_empty. unfold bind, ret. cbv zeta.
  destruct (search_alternative_font_providers _ _ _ font st) as [[alt|] st'];
    reflexivity.
Qed.

End ChainFacts.

Lemma chain_order_and_short_circuit_witness :
  let first := fun (name : string) (w : nat) => (Some ("https://a/" +:+ name), S w) in
  let other := fun (name : string) (w : nat) => (Some ("https://b/" +:+ name), S w) in
  search_alternative_font_providers first other other "Inter" (mkChain 0%nat [])
    = (Some (mkReference "https://a/Inter" "1001Fonts"), mkChain 1%nat ["1001Fonts"]).
Proof.
  cbv zeta.
  apply (proj1 (chain_order_and_short_circuit
                  (fun (name : string) (w : nat) => (Some ("https://a/" +:+ name), S w))
                  (fun (name : string) (w : nat) => (Some ("https://b/" +:+ name), S w))
                  (fun (name : string) (w : nat) => (Some ("https://b/" +:+ name), S w))
                  "Inter" (mkChain 0%nat []))).
  reflexivity.
Defined.

(** ** The indexed source *)

Section IndexFacts.

Variable env_key : option string.
Variable key_file_writable : bool.
Variable server : string -> api_response.

Abbreviation api_key := (get_google_fonts_api_key env_key key_file_writable).
Abbreviation index := (get_google_fonts_index env_key key_file_writable server).

Lemma api_key_known (s : session) :
  truthy (GOOGLE_API_KEY s) = true -> api_key s = Returns (GOOGLE_API_KEY s) s.
Proof. intros H. unfold get_google_fonts_api_key. now rewrite H. Qed.

Lemma input_stdin (s s1 : session) (line : string) :
  input s = Returns line s1 -> stdin s = line :: stdin s1.
Proof.
  unfold input. destruct (stdin s) as [|l rest] eqn:E; [discriminate|].
  now intros [= -> <-].
Qed.

Lemma write_key_file_stdin (k : string) (s : session) :
  stdin (write_key_file key_file_writable k s) = stdin s.
Proof. unfold write_key_file. now destruct key_file_writable. Qed.

(** Asking for the key reads lines and gives none back. *)
Lemma api_key_stdin (s s1 : session) (k : string) :
  api_key s = Returns k s1 -> length (stdin s1) <= length (stdin s).
Proof.
  unfold get_google_fonts_api_key.
  destruct (truthy (GOOGLE_API_KEY s)); [now intros [= _ <-]|].
  destruct (if_true env_key); [now intros [= _ <-]|].
  destruct (key_file s); [now intros [= _ <-]|].
  destruct (input s) as [line s2| |] eqn:E1; try discriminate.
  destruct (truthy (strip line)); cbn; [|discriminate].
  destruct (input s2) as [answer s3| |] eqn:E2; try discriminate.
  intros [= _ <-]. cbn.
  apply input_stdin in E1, E2. rewrite E1, E2.
  destruct (_ || _); rewrite ?write_key_file_stdin; cbn; lia.
Qed.

(** The run ends: fuel beyond the number of lines typed is never used up. *)
Lemma get_google_fonts_index_total (fuel : nat) :
  forall s, length (stdin s) < fuel -> is_Some (index fuel s).
Proof.
  induction fuel as [|fuel IH]; intros s Hlen; [lia|].
  cbn [get_google_fonts_index].
  destruct (api_key s) as [k s1| |] eqn:Ek; eauto.
  apply api_key_stdin in Ek. unfold fetch.
  destruct (server (GOOGLE_API_URL s1)) as [code items|]; eauto.
  destruct (is_http_error code); [|destruct items; eauto].
  destruct (code =? 403)%N; eauto.
  unfold input. cbn [stdin].
  destruct (stdin s1) as [|line rest] eqn:E; eauto.
  destruct (truthy (strip line)); eauto.
  apply IH. cbn in *. lia.
Qed.

(** A fetch that the endpoint answers with the index. *)
Lemma index_accepted (fuel : nat) (s s1 : session) (k : string)
    (items : list (string * option (list string))) :
  api_key s = Returns k s1 ->
  server (GOOGLE_API_URL s1) = Status 200 (Some items) ->
  index (S fuel) s =
    Some (Returns (index_of items)
            (mkSession (GOOGLE_API_KEY s1) (GOOGLE_API_URL s1) (stdin s1) (key_file s1)
               (requested s1 ++ [GOOGLE_API_URL s1]))).
Proof.
  intros Hk Hs. cbn [get_google_fonts_index].
  rewrite Hk. unfold fetch. now rewrite Hs.
Qed.

(** A fetch refused with 403, answered by a new key: the function runs
    again with the new key. *)
Lemma index_rejected_retry (fuel : nat) (s s1 : session) (k line : string)
    (rest : list string) (items : option (list (string * option (list string)))) :
  api_key s = Returns k s1 ->
  server (GOOGLE_API_URL s1) = Status 403 items ->
  stdin s1 = line :: rest ->
  truthy (strip line) = true ->
  index (S fuel) s =
    index fuel
      (mkSession (strip line) (api_url (strip line)) rest (key_file s1)
         (requested s1 ++ [GOOGLE_API_URL s1])).
Proof.
  intros Hk Hs Hin Hline. cbn [get_google_fonts_index].
  rewrite Hk. unfold fetch. rewrite Hs. cbn.
  unfold input. cbn. rewrite Hin, Hline. reflexivity.
Qed.

(** A fetch refused with 403, answered by an empty line: the index is
    empty, after this one fetch. *)
Lemma index_rejected_abandon (fuel : nat) (s s1 : session) (k line : string)
    (rest : list string) (items : option (list (string * option (list string)))) :
  api_key s = Returns k s1 ->
  server (GOOGLE_API_URL s1) = Status 403 items ->
  stdin s1 = line :: rest ->
  truthy (strip line) = false ->
  index (S fuel) s =
    Some (Returns ∅
            (mkSession (GOOGLE_API_KEY s1) (GOOGLE_API_URL s1) rest (key_file s1)
               (requested s1 ++ [GOOGLE_API_URL s1]))).
Proof.
  intros Hk Hs Hin Hline. cbn [get_google_fonts_index].
  rewrite Hk. unfold fetch. rewrite Hs. cbn.
  unfold input. cbn. rewrite Hin, Hline. reflexivity.
Qed.

(** Any number of refused keys, then one that is accepted: one fetch for
    the first key and one more for every line typed. *)
Lemma index_retried_each_time (rejected : list string) (accepted : string)
    (items : list (string * option (list string))) (rest : list string) :
  forall (s s1 : session) (k : string) (fuel : nat),
    api_key s = Returns k s1 ->
    (exists it, server (GOOGLE_API_URL s1) = Status 403 it) ->
    Forall (refused server) rejected ->
    truthy (strip accepted) = true ->
    server (api_url (strip accepted)) = Status 200 (Some items) ->
    stdin s1 = rejected ++ accepted :: rest ->
    length rejected + 1 < fuel ->
    index fuel s =
      Some (Returns (index_of items)
              (mkSession (strip accepted) (api_url (strip accepted)) rest (key_file s1)
                 (requested s1 ++ GOOGLE_API_URL s1 ::
                    map (fun line => api_url (strip line)) (rejected ++ [accepted])))).
Proof.
  induction rejected as [|line rejected IH];
    intros s s1 k fuel Hk [it Hs] Hrej Hacc Hok Hin Hfuel.
  - destruct fuel as [|[|fuel]]; cbn in Hfuel; try lia.
    rewrite (index_rejected_retry _ s s1 k accepted rest it Hk Hs Hin Hacc).
    erewrite index_accepted; [|now apply api_key_known|exact Hok]. cbn.
    now rewrite <- app_assoc.
  - destruct fuel as [|fuel]; cbn in Hfuel; [lia|].
    apply Forall_cons in Hrej as [[Hline [it' Hs']] Hrej].
    rewrite (index_rejected_retry _ s s1 k line (rejected ++ accepted :: rest) it
               Hk Hs Hin Hline).
    erewrite IH; [|now apply api_key_known|cbn; eauto..]; [|lia].
    cbn. now rewrite <- app_assoc.
Qed.

End IndexFacts.

(** A run from the start: the key is asked for and not saved, it is
    refused, and so is the next one. *)
Example index_from_the_prompt :
  get_google_fonts_index None false sample_server 4
    (initial_session [" bad1 "; "n"; "bad2"; "good"; "unread"] None) =
    Some (Returns (index_of sample_items)
            (mkSession "good" (api_url "good") ["unread"] None
               [api_url "bad1"; api_url "bad2"; api_url "good"])).
Proof. vm_compute. reflexivity. Qed.

(** C4, as the claim states it, fails: the first key and the key typed after
    it are both refused, and the function asks again, fetches a third time
    with the third key and returns the index. *)
Lemma index_fetch_retried_twice :
  sample_server (api_url "bad1") = Status 403 None /\
  sample_server (api_url "bad2") = Status 403 None /\
  get_google_fonts_index None false sample_server 3 sample_session =
    Some (Returns (index_of sample_items)
            (mkSession "good" (api_url "good") [] None
               [api_url "bad1"; api_url "bad2"; api_url "good"])).
Proof. repeat split; vm_compute; reflexivity. Qed.

(** C4 (amended): after a fetch refused with 403 the caller is asked for a
    new key.  Every line typed that is not empty starts a new fetch with that
    key, however many keys were refused before; an empty line ends the
    attempts with an empty index after this one fetch; and with an empty index
    every missing family is looked up through the chain of the other
    providers.  [s] is the session in which the function is called and [s1]
    the session in which its first fetch is sent. *)
Theorem indexed_source_retry_policy (env_key : option string)
    (key_file_writable : bool) (server : string -> api_response)
    (s s1 : session) (k : string) :
  get_google_fonts_api_key env_key key_file_writable s = Returns k s1 ->
  (exists items, server (GOOGLE_API_URL s1) = Status 403 items) ->
  (forall (rejected : list string) (accepted : string)
          (items : list (string * option (list string))) (rest : list string)
          (fuel : nat),
     Forall (refused server) rejected ->
     truthy (strip accepted) = true ->
     server (api_url (strip accepted)) = Status 200 (Some items) ->
     stdin s1 = rejected ++ accepted :: rest ->
     length (stdin s1) < fuel ->
     get_google_fonts_index env_key key_file_writable server fuel s =
       Some (Returns (index_of items)
               (mkSession (strip accepted) (api_url (strip accepted)) rest (key_file s1)
                  (requested s1 ++ GOOGLE_API_URL s1 ::
                     map (fun line => api_url (strip line)) (rejected ++ [accepted]))))) /\
  (forall (line : string) (rest : list string) (fuel : nat),
     stdin s1 = line :: rest ->
     truthy (strip line) = false ->
     get_google_fonts_index env_key key_file_writable server (S fuel) s =
       Some (Returns ∅
               (mkSession (GOOGLE_API_KEY s1) (GOOGLE_API_URL s1) rest (key_file s1)
                  (requested s1 ++ [GOOGLE_API_URL s1])))) /\
  (forall (W : Type) (search_1001fonts search_dafont search_freefont
             : string -> W -> option string * W)
          (font : string) (st : chain_state),
     resolve_missing search_1001fonts search_dafont search_freefont ∅ font st =
       let r := search_alternative_font_providers search_1001fonts search_dafont
                  search_freefont font st in
       (match r.1 with
        | Some alt_source => FromAlternative alt_source
        | None => Unavailable
        end, r.2)).
Proof.
  intros Hk Hs. split; [|split].
  - intros rejected accepted items rest fuel Hrej Hacc Hok Hin Hfuel.
    eapply index_retried_each_time; eauto.
    rewrite Hin, length_app in Hfuel. cbn in Hfuel. lia.
  - intros line rest fuel Hin Hline. destruct Hs as [items Hs].
    now apply (index_rejected_abandon _ _ _ _ _ s1 k line rest items).
  - intros. apply resolve_missing_empty_index.
Qed.

Lemma indexed_source_retry_policy_witness :
  get_google_fonts_api_key None false
    (initial_session [" bad1 "; "n"; "bad2"; "good"; "unread"] None) =
    Returns "bad1" (mkSession "bad1" (api_url "bad1") ["bad2"; "good"; "unread"] None []) /\
  Forall (refused sample_server) ["bad2"] /\
  get_google_fonts_index None false sample_server 4
    (initial_session [" bad1 "; "n"; "bad2"; "good"; "unread"] None) =
    Some (Returns (index_of sample_items)
            (mkSession "good" (api_url "good") ["unread"] None
               [api_url "bad1"; api_url "bad2"; api_url "good"])).
Proof.
  assert (Hrej : Forall (refused sample_server) ["bad2"]).
  { repeat constructor. exists None. reflexivity. }
  assert (Hkey : get_google_fonts_api_key None false
            (initial_session [" bad1 "; "n"; "bad2"; "good"; "unread"] None) =
          Returns "bad1"
            (mkSession "bad1" (api_url "bad1") ["bad2"; "good"; "unread"] None []))
    by reflexivity.
  split; [exact Hkey|]. split; [exact Hrej|].
  apply (proj1 (indexed_source_retry_policy None false sample_server _ _ _ Hkey
                  (ex_intro _ None eq_refl))
           ["bad2"] "good" sample_items ["unread"] 4 Hrej eq_refl eq_refl eq_refl).
  cbn. lia.
Defined.

(** * Further properties *)

(** ** Installer: a whole run *)

Section InstallRun.

Variable fontTools : option (list byte -> option bool).

Abbreviation total c :=
  (installed_count c + replaced_count c + skipped_count c)%nat.

Lemma install_one_counts (replace_existing : bool) (acc : dir * counts)
    (f : string * list byte) :
  let r := install_one fontTools replace_existing acc f in
  total r.2 = S (total acc.2) /\
  (variable_count acc.2 <= installed_count acc.2 + replaced_count acc.2 ->
   variable_count r.2 <= installed_count r.2 + replaced_count r.2).
Proof.
  destruct acc as [dest c]. unfold install_one. cbn [fst snd].
  destruct (bool_decide (is_Some (dest !! basename f.1))),
    replace_existing, (is_variable_font fontTools f.2); cbn; lia.
Qed.

Lemma install_loop_counts (replace_existing : bool) (l : list (string * list byte)) :
  forall acc,
    let r := foldl (install_one fontTools replace_existing) acc l in
    total r.2 = (total acc.2 + length l)%nat /\
    (variable_count acc.2 <= installed_count acc.2 + replaced_count acc.2 ->
     variable_count r.2 <= installed_count r.2 + replaced_count r.2).
Proof.
  induction l as [|f l IH]; intros acc; cbn [foldl length].
  - split; [lia|auto].
  - destruct (IH (install_one fontTools replace_existing acc f)) as [H1 H2].
    destruct (install_one_counts replace_existing acc f) as [H3 H4].
    cbv zeta in *. split; [lia|auto].
Qed.

(** Every staged font file is counted once, as installed, replaced or
    skipped, files that are not fonts are not counted, and the variable fonts
    counted are among those copied. *)
Theorem install_counts_account (replace_existing : bool)
    (staged : list (string * list byte)) (dest : dir) :
  let c := (install_fonts_from_temp fontTools replace_existing staged dest).2 in
  (installed_count c + replaced_count c + skipped_count c)%nat =
    length (filter (fun f => is_font_file f.1 = true) staged) /\
  variable_count c <= installed_count c + replaced_count c.
Proof.
  cbv zeta. unfold install_fonts_from_temp.
  destruct (install_loop_counts replace_existing
              (filter (fun f => is_font_file f.1 = true) staged)
              (dest, mkCounts 0 0 0 0)) as [H1 H2].
  cbv zeta in *. cbn in *. split; [lia|apply H2; lia].
Qed.

(** The font files among the staged files, and those of a given name. *)
Abbreviation fonts_among staged :=
  (filter (fun f : string * list byte => is_font_file f.1 = true) staged).
Abbreviation named name l :=
  (filter (fun f : string * list byte => basename f.1 = name) l).

Lemma install_one_dest (replace_existing : bool) (dest : dir) (c : counts)
    (f : string * list byte) :
  (install_one fontTools replace_existing (dest, c) f).1 =
    if bool_decide (is_Some (dest !! basename f.1)) &&
       negb (replace_existing || is_variable_font fontTools f.2)
    then dest else <[basename f.1 := f.2]> dest.
Proof.
  unfold install_one.
  destruct (bool_decide (is_Some (dest !! basename f.1)) &&
            negb (replace_existing || is_variable_font fontTools f.2));
    reflexivity.
Qed.

Lemma install_loop_replacing (l : list (string * list byte)) (name : string) :
  forall acc,
    (foldl (install_one fontTools true) acc l).1 !! name =
      match last (named name l) with
      | Some f => Some f.2
      | None => acc.1 !! name
      end.
Proof.
  induction l as [|f l IH] using rev_ind; intros acc; [reflexivity|].
  rewrite foldl_app, filter_app. cbn [foldl].
  destruct (foldl (install_one fontTools true) acc l) as [dest c] eqn:E.
  rewrite install_one_dest. cbn [orb negb]. rewrite andb_false_r.
  destruct (decide (basename f.1 = name)) as [Heq|Hne].
  - rewrite filter_cons_True, filter_nil, last_snoc by exact Heq.
    rewrite Heq. apply lookup_insert_eq.
  - rewrite filter_cons_False, filter_nil, app_nil_r by exact Hne.
    rewrite lookup_insert_ne by exact Hne.
    specialize (IH acc). rewrite E in IH. exact IH.
Qed.

Lemma install_loop_replacing_skips (l : list (string * list byte)) :
  forall acc,
    skipped_count (foldl (install_one fontTools true) acc l).2 = skipped_count acc.2.
Proof.
  induction l as [|f l IH]; intros acc; [reflexivity|].
  cbn [foldl]. rewrite IH. destruct acc as [dest c]. unfold install_one.
  cbn [fst snd orb negb]. rewrite andb_false_r.
  destruct (bool_decide (is_Some (dest !! basename f.1))),
    (is_variable_font fontTools f.2); reflexivity.
Qed.

(** With [replace_existing] set nothing is skipped, and the directory ends
    with, under every name, the content of the last staged font file of that
    name, or what it held before when no staged font file has the name. *)
Theorem install_replacing_last_wins (staged : list (string * list byte))
    (dest : dir) (name : string) :
  let r := install_fonts_from_temp fontTools true staged dest in
  skipped_count r.2 = 0%nat /\
  r.1 !! name =
    match last (named name (fonts_among staged)) with
    | Some f => Some f.2
    | None => dest !! name
    end.
Proof.
  cbv zeta. unfold install_fonts_from_temp. split.
  - now rewrite install_loop_replacing_skips.
  - now rewrite install_loop_replacing.
Qed.

Lemma install_loop_keeping (l : list (string * list byte)) (name : string) :
  Forall (fun f => is_variable_font fontTools f.2 = false) l ->
  forall acc,
    (foldl (install_one fontTools false) acc l).1 !! name =
      match acc.1 !! name with
      | Some old => Some old
      | None => snd <$> head (named name l)
      end.
Proof.
  induction 1 as [|f l Hf _ IH]; intros [dest c].
  - cbn. now destruct (dest !! name).
  - cbn [foldl]. rewrite IH.
    destruct (install_one fontTools false (dest, c) f) as [dest1 c1] eqn:E.
    assert (dest1 = (install_one fontTools false (dest, c) f).1) as -> by now rewrite E.
    rewrite install_one_dest, Hf. cbn [orb negb fst]. rewrite andb_true_r.
    destruct (decide (basename f.1 = name)) as [Heq|Hne].
    + rewrite filter_cons_True by exact Heq. rewrite Heq. cbn [head fmap option_fmap option_map].
      destruct (dest !! name) as [old|] eqn:Hd.
      * rewrite bool_decide_eq_true_2 by eauto. now rewrite Hd.
      * rewrite bool_decide_eq_false_2 by (intros [? ?]; congruence).
        now rewrite lookup_insert_eq.
    + rewrite filter_cons_False by exact Hne.
      destruct (bool_decide (is_Some (dest !! basename f.1)));
        [reflexivity|now rewrite lookup_insert_ne].
Qed.

(** Without [replace_existing], when no staged font is variable, every file
    that the directory held keeps its content, and a new name gets the content
    of the first staged font file of that name. *)
Theorem install_keeping_first_wins (staged : list (string * list byte))
    (dest : dir) (name : string) :
  Forall (fun f => is_variable_font fontTools f.2 = false) staged ->
  (install_fonts_from_temp fontTools false staged dest).1 !! name =
    match dest !! name with
    | Some old => Some old
    | None => snd <$> head (named name (fonts_among staged))
    end.
Proof.
  intros Hvar. unfold install_fonts_from_temp.
  rewrite install_loop_keeping; [reflexivity|].
  apply Forall_forall. intros f [_ Hf]%list_elem_of_filter.
  revert f Hf. now apply Forall_forall.
Qed.

(** Whatever the flags, a run removes no file of the directory. *)
Theorem install_removes_nothing (replace_existing : bool)
    (staged : list (string * list byte)) (dest : dir) (name : string) :
  is_Some (dest !! name) ->
  is_Some ((install_fonts_from_temp fontTools replace_existing staged dest).1 !! name).
Proof.
  unfold install_fonts_from_temp.
  generalize (fonts_among staged) as l. intros l.
  generalize (mkCounts 0 0 0 0) as c. revert dest.
  induction l as [|f l IH]; intros dest c Hsome; [exact Hsome|].
  cbn [foldl].
  destruct (install_one fontTools replace_existing (dest, c) f) as [dest1 c1] eqn:E.
  apply IH.
  assert (dest1 = (install_one fontTools replace_existing (dest, c) f).1) as ->
    by now rewrite E.
  rewrite install_one_dest.
  destruct (_ && _); [exact Hsome|].
  rewrite lookup_insert. destruct (decide (basename f.1 = name)); eauto.
Qed.

End InstallRun.

Lemma install_keeping_first_wins_witness :
  let old := list_byte_of_string "old" in
  let a := list_byte_of_string "first" in
  let b := list_byte_of_string "second" in
  let dest : dir := {["Inter.ttf" := old]} in
  let staged := [("x/Inter.ttf", a); ("x/Futura.otf", a); ("y/Futura.otf", b)] in
  (install_fonts_from_temp None false staged dest).1 !! "Inter.ttf" = Some old /\
  (install_fonts_from_temp None false staged dest).1 !! "Futura.otf" = Some a.
Proof.
  cbv zeta. split.
  - rewrite install_keeping_first_wins by (repeat constructor). reflexivity.
  - rewrite install_keeping_first_wins by (repeat constructor). reflexivity.
Defined.

Lemma install_removes_nothing_witness :
  is_Some
    ((install_fonts_from_temp None true
        [("x/Futura.otf", list_byte_of_string "new")]
        {["Inter.ttf" := list_byte_of_string "old"]}).1 !! "Inter.ttf").
Proof.
  apply (install_removes_nothing None true). eexists. reflexivity.
Defined.

(** ** Acquisition: what a download leaves behind *)

Lemma extractall_keeps (entries : list (string * list byte)) :
  forall (d : dir) (name : string),
    is_Some (d !! name) -> is_Some (extractall entries d !! name).
Proof.
  unfold extractall. induction entries as [|e entries IH]; intros d name H; [exact H|].
  cbn [foldl]. apply IH. rewrite lookup_insert.
  destruct (decide (e.1 = name)); eauto.
Qed.

Lemma endswith_app (s suffix : string) : endswith (s +:+ suffix) suffix = true.
Proof.
  induction s as [|c s IH].
  - change ("" +:+ suffix) with suffix.
    destruct suffix; cbn [endswith]; now rewrite String.eqb_refl.
  - change (String c s +:+ suffix) with (String c (s +:+ suffix)).
    cbn [endswith]. rewrite IH. apply orb_true_r.
Qed.

Lemma after_last_slash_app (s ext : string) :
  after_last_slash ext = None ->
  after_last_slash (s +:+ ext) = (fun t => t +:+ ext) <$> after_last_slash s.
Proof.
  intros Hext. induction s as [|c s IH]; [exact Hext|].
  change (String c s +:+ ext) with (String c (s +:+ ext)).
  cbn [after_last_slash]. rewrite IH.
  destruct (after_last_slash s); cbn; [reflexivity|].
  now destruct (Ascii.eqb c "/").
Qed.

(** A file saved as a name followed by [.otf] or [.ttf] is a font file for
    the traversal. *)
Lemma is_font_file_ext (name ext : string) :
  ext = ".otf" \/ ext = ".ttf" -> is_font_file (name +:+ ext) = true.
Proof.
  intros Hext. unfold is_font_file, basename.
  rewrite after_last_slash_app by (destruct Hext as [-> | ->]; reflexivity).
  destruct (after_last_slash name) as [t|]; cbn [fmap option_fmap option_map from_option id];
    destruct Hext as [-> | ->]; rewrite endswith_app; rewrite ?orb_true_r; reflexivity.
Qed.

Lemma has_font_files_insert (d : dir) (path : string) (data : list byte) :
  is_font_file path = true -> has_font_files (<[path := data]> d) = true.
Proof.
  intros Hf. unfold has_font_files. apply negb_true_iff, bool_decide_eq_false_2.
  intros Hnil.
  assert (Hin : (path, data) ∈ filter (fun p : string * list byte => is_font_file p.1 = true)
                  (map_to_list (<[path := data]> d))).
  { apply list_elem_of_filter. split; [exact Hf|].
    apply elem_of_map_to_list, lookup_insert_eq. }
  rewrite Hnil in Hin. inversion Hin.
Qed.

Section Downloads.

Variable unzip : list byte -> zip_result.

(** Neither download removes a file from the staging font directory,
    whatever the response and the archive. *)
Theorem downloads_keep_staged_fonts (name source_name style_info : string)
    (variants : option (list string)) (response : option (list byte))
    (st : staging) (path : string) :
  is_Some (fonts_dir st !! path) ->
  is_Some (fonts_dir (download_google_font unzip name style_info variants
                        response st).2 !! path) /\
  is_Some (fonts_dir (download_font_from_alternative_source unzip name source_name
                        style_info response st).2 !! path).
Proof.
  intros H. unfold download_google_font, download_font_from_alternative_source.
  destruct response as [data|]; [|split; exact H].
  destruct (unzip data) as [entries| |]; cbn [fonts_dir snd].
  - split; [now apply extractall_keeps|].
    destruct (has_font_files _); cbn; now apply extractall_keeps.
  - split.
    + rewrite lookup_insert. destruct (decide _); eauto.
    + destruct (_ || _); cbn; [|exact H].
      rewrite lookup_insert. destruct (decide _); eauto.
  - split; exact H.
Qed.


(** The temporary copy of the payload: a download that reports success has
    deleted it, and one that fails after the payload was written leaves it in
    the staging directory. *)
Theorem downloads_temporary_file (name source_name style_info : string)
    (variants : option (list string)) (data : list byte) (st : staging) :
  let g := download_google_font unzip name style_info variants (Some data) st in
  let a := download_font_from_alternative_source unzip name source_name style_info
             (Some data) st in
  temp_dir g.2 =
    (if g.1 then delete (name +:+ ".download") (temp_dir st)
     else <[name +:+ ".download" := data]> (temp_dir st)) /\
  temp_dir a.2 =
    (if a.1 then delete (name +:+ "_" +:+ source_name +:+ ".zip") (temp_dir st)
     else <[name +:+ "_" +:+ source_name +:+ ".zip" := data]> (temp_dir st)).
Proof.
  cbv zeta. unfold download_google_font, download_font_from_alternative_source.
  destruct (unzip data) as [entries| |]; cbn.
  - split; [apply delete_insert_eq|].
    destruct (has_font_files _); cbn; [apply delete_insert_eq|reflexivity].
  - split; [apply delete_insert_eq|].
    destruct (_ || _); cbn; [apply delete_insert_eq|reflexivity].
  - split; reflexivity.
Qed.

(** On a payload that is not an archive, whenever the download from an
    alternative source accepts it, the download from Google Fonts accepts it
    too and stages it under the same name: [.otf] after the signature OTTO and
    [.ttf] otherwise. *)
Theorem downloads_agree_on_fonts (name source_name style_info : string)
    (variants : option (list string)) (data : list byte) (st : staging) :
  let g := download_google_font unzip name style_info variants (Some data) st in
  let a := download_font_from_alternative_source unzip name source_name style_info
             (Some data) st in
  unzip data = BadZipFile ->
  a.1 = true ->
  g.1 = true /\
  fonts_dir g.2 = fonts_dir a.2 /\
  fonts_dir a.2 =
    <[name +:+ (if bytes_startswith (take 4 data) OTTO then ".otf" else ".ttf") := data]>
      (fonts_dir st).
Proof.
  cbv zeta. unfold download_google_font, download_font_from_alternative_source.
  intros ->.
  destruct (bytes_startswith (take 4 data) OTTO),
    (bytes_startswith (take 4 data) TRUETYPE); cbn; try discriminate; auto.
Qed.

End Downloads.

Lemma downloads_keep_staged_fonts_witness :
  let st := mkStaging ∅ {["Old.ttf" := list_byte_of_string "old"]} in
  let unzip := fun _ : list byte => ZipOk [("New.ttf", list_byte_of_string "new")] in
  is_Some (fonts_dir (download_google_font unzip "Inter" "Regular" None
                        (Some (list_byte_of_string "PK")) st).2 !! "Old.ttf").
Proof.
  cbv zeta.
  apply (downloads_keep_staged_fonts
           (fun _ : list byte => ZipOk [("New.ttf", list_byte_of_string "new")])
           "Inter" "DaFont" "Regular" None (Some (list_byte_of_string "PK"))
           (mkStaging ∅ {["Old.ttf" := list_byte_of_string "old"]}) "Old.ttf").
  eexists. reflexivity.
Defined.


Lemma downloads_agree_on_fonts_witness :
  let data := list_byte_of_string "OTTO-data" in
  fonts_dir (download_google_font (fun _ => BadZipFile) "Inter" "Regular" None
               (Some data) (mkStaging ∅ ∅)).2 = {["Inter.otf" := data]}.
Proof.
  cbv zeta.
  destruct (downloads_agree_on_fonts (fun _ => BadZipFile) "Inter" "DaFont" "Regular"
              None (list_byte_of_string "OTTO-data") (mkStaging ∅ ∅) eq_refl eq_refl)
    as (_ & -> & ->).
  reflexivity.
Defined.

(** ** The indexed source: bounds and the key *)

Lemma append_empty_r (s : string) : s +:+ "" = s.
Proof.
  induction s as [|c s IH]; [reflexivity|].
  change (String c s +:+ "") with (String c (s +:+ "")). now rewrite IH.
Qed.

Lemma format_key_template (key : string) :
  format_key API_URL_TEMPLATE key = api_url key.
Proof.
  unfold format_key, Re.sub, API_URL_TEMPLATE, api_url.
  cbn -[String.append]. rewrite append_empty_r. reflexivity.
Qed.

Section IndexBounds.

Variable env_key : option string.
Variable key_file_writable : bool.
Variable server : string -> api_response.

Abbreviation api_key := (get_google_fonts_api_key env_key key_file_writable).
Abbreviation index := (get_google_fonts_index env_key key_file_writable server).

Lemma write_key_file_fields (k : string) (s : session) :
  let s' := write_key_file key_file_writable k s in
  GOOGLE_API_KEY s' = GOOGLE_API_KEY s /\ GOOGLE_API_URL s' = GOOGLE_API_URL s /\
  stdin s' = stdin s /\ requested s' = requested s.
Proof. unfold write_key_file. now destruct key_file_writable. Qed.

(** In a program that starts, whichever way the key is found (the
    environment, the key file or the prompt), the key returned is the one
    stored and the URL stored is the index URL with that key. *)
Theorem api_key_sets_matching_url (s s1 : session) (k : string) :
  GOOGLE_API_KEY s = "" ->
  GOOGLE_API_URL s = API_URL_TEMPLATE ->
  api_key s = Returns k s1 ->
  GOOGLE_API_KEY s1 = k /\ GOOGLE_API_URL s1 = api_url k /\
  requested s1 = requested s.
Proof.
  intros Hk Hu. unfold get_google_fonts_api_key. rewrite Hk. cbn [truthy is_empty negb].
  destruct (if_true env_key) as [e|].
  { intros [= <- <-]. unfold set_key. cbn [GOOGLE_API_KEY GOOGLE_API_URL requested].
    now rewrite Hu, format_key_template. }
  destruct (key_file s) as [content|].
  { intros [= <- <-]. unfold set_key. cbn [GOOGLE_API_KEY GOOGLE_API_URL requested].
    now rewrite Hu, format_key_template. }
  unfold input. destruct (stdin s) as [|line rest]; [discriminate|].
  destruct (truthy (strip line)); cbn [negb]; [|discriminate].
  cbn [stdin]. destruct rest as [|answer rest]; [discriminate|].
  intros [= <- <-]. unfold set_key. cbn [GOOGLE_API_KEY GOOGLE_API_URL requested].
  destruct (_ || _);
    rewrite ?(proj1 (proj2 (write_key_file_fields _ _))),
            ?(proj2 (proj2 (proj2 (write_key_file_fields _ _))));
    cbn [GOOGLE_API_KEY GOOGLE_API_URL requested];
    now rewrite Hu, format_key_template.
Qed.

(** The program exits from the index function only at the first prompt:
    when no key is known from the globals, the environment or the key file,
    and the line typed is blank.  No later step exits. *)
Theorem index_exits_only_at_first_prompt (fuel : nat) (s s1 : session) :
  index (S fuel) s = Some (SystemExit s1) <->
  truthy (GOOGLE_API_KEY s) = false /\ if_true env_key = None /\ key_file s = None /\
  exists line rest,
    stdin s = line :: rest /\ truthy (strip line) = false /\
    s1 = mkSession (GOOGLE_API_KEY s) (GOOGLE_API_URL s) rest (key_file s) (requested s).
Proof.
  assert (Hdeep : forall n s', truthy (GOOGLE_API_KEY s') = true ->
            forall x, index n s' <> Some (SystemExit x)).
  { induction n as [|n IH]; intros s' Hk x; [discriminate|].
    cbn [get_google_fonts_index]. unfold get_google_fonts_api_key. rewrite Hk.
    unfold fetch. destruct (server (GOOGLE_API_URL s')) as [code items|]; [|discriminate].
    destruct (is_http_error code); [|destruct items; discriminate].
    destruct (code =? 403)%N; [|discriminate].
    unfold input. cbn [stdin]. destruct (stdin s') as [|line rest]; [discriminate|].
    destruct (truthy (strip line)) eqn:Hl; [|discriminate].
    apply IH. exact Hl. }
  cbn [get_google_fonts_index]. split.
  - destruct (api_key s) as [k s2| |] eqn:Ek; [|intros [= <-]|discriminate].
    + intros H. exfalso. revert H.
      unfold get_google_fonts_api_key in Ek.
      unfold fetch. destruct (server (GOOGLE_API_URL s2)) as [code items|]; [|discriminate].
      destruct (is_http_error code); [|destruct items; discriminate].
      destruct (code =? 403)%N; [|discriminate].
      unfold input. cbn [stdin]. destruct (stdin s2) as [|line rest]; [discriminate|].
      destruct (truthy (strip line)) eqn:Hl; [|discriminate].
      apply Hdeep. exact Hl.
    + unfold get_google_fonts_api_key, input in Ek.
      destruct (truthy (GOOGLE_API_KEY s)); [discriminate|].
      destruct (if_true env_key); [discriminate|].
      destruct (key_file s); [discriminate|].
      destruct (stdin s) as [|line rest] eqn:Hin; [discriminate|].
      destruct (truthy (strip line)) eqn:Hl; cbn in Ek.
      * destruct rest; discriminate.
      * injection Ek as <-. split; [reflexivity|]. split; [reflexivity|].
        split; [reflexivity|]. exists line, rest. auto.
  - intros (Hk & He & Hf & line & rest & Hin & Hl & ->).
    unfold get_google_fonts_api_key, input. rewrite Hk, He, Hf, Hin, Hl. reflexivity.
Qed.

(** Asking for the key sends no request and gives no line back. *)
Lemma api_key_session (s : session) :
  let s1 := ending_session (api_key s) in
  requested s1 = requested s /\ length (stdin s1) <= length (stdin s).
Proof.
  cbv zeta. unfold get_google_fonts_api_key, input.
  destruct (truthy (GOOGLE_API_KEY s)); [cbn; auto|].
  destruct (if_true env_key); [cbn; auto|].
  destruct (key_file s); [cbn; auto|].
  destruct (stdin s) as [|line rest] eqn:Hin; [cbn; rewrite Hin; auto|].
  destruct (truthy (strip line)); cbn; [|auto].
  destruct rest as [|answer rest]; cbn; [auto|].
  destruct (_ || _); cbn; [|auto].
  rewrite (proj1 (proj2 (proj2 (write_key_file_fields _ _)))),
          (proj2 (proj2 (proj2 (write_key_file_fields _ _)))).
  cbn. auto.
Qed.

(** Every request after the first is paid for by a line typed: at the end
    of a run, the requests sent since its start are at most one more than the
    lines read since its start. *)
Theorem index_fetches_bounded (fuel : nat) :
  forall (s : session) (e : ending (gmap string (option (list string)))),
    index fuel s = Some e ->
    length (requested (ending_session e)) + length (stdin (ending_session e))
      <= length (requested s) + length (stdin s) + 1.
Proof.
  induction fuel as [|fuel IH]; intros s e; [discriminate|].
  cbn [get_google_fonts_index].
  pose proof (api_key_session s) as [Hreq Hin]. cbv zeta in Hreq, Hin.
  destruct (api_key s) as [k s1| |]; cbn [ending_session] in Hreq, Hin;
    [|intros [= <-]; cbn; rewrite Hreq; lia..].
  unfold fetch.
  destruct (server (GOOGLE_API_URL s1)) as [code items|].
  - destruct (is_http_error code).
    + destruct (code =? 403)%N.
      * unfold input. cbn [stdin]. destruct (stdin s1) as [|line rest] eqn:E.
        -- intros [= <-]. cbn. rewrite length_app, Hreq. cbn. lia.
        -- destruct (truthy (strip line)).
           ++ intros H. apply IH in H. cbn in H, Hin.
              rewrite length_app, Hreq in H. cbn in H. lia.
           ++ intros [= <-]. cbn in *. rewrite length_app, Hreq. cbn. lia.
      * intros [= <-]. cbn. rewrite length_app, Hreq. cbn. lia.
    + destruct items; intros [= <-]; cbn; rewrite length_app, Hreq; cbn; lia.
  - intros [= <-]. cbn. rewrite length_app, Hreq. cbn. lia.
Qed.

(** More steps allowed do not change the result of a run. *)
Lemma index_fuel_mono (fuel : nat) :
  forall (s : session) (e : ending (gmap string (option (list string)))) (fuel' : nat),
    index fuel s = Some e -> fuel <= fuel' -> index fuel' s = Some e.
Proof.
  induction fuel as [|fuel IH]; intros s e fuel'; [discriminate|].
  destruct fuel' as [|fuel']; [lia|].
  cbn [get_google_fonts_index]. intros H Hle.
  destruct (api_key s) as [k s1| |]; [|exact H..].
  unfold fetch in *. destruct (server (GOOGLE_API_URL s1)) as [code items|]; [|exact H].
  destruct (is_http_error code); [|exact H].
  destruct (code =? 403)%N; [|exact H].
  destruct (input _) as [line s3| |]; [|exact H..].
  destruct (truthy (strip line)); [|exact H].
  apply (IH _ _ _ H). lia.
Qed.

(** A run ends whenever the input holds finitely many lines, and what it
    ends with does not depend on the number of steps allowed, once these are
    more than the lines waiting on the input. *)
Theorem index_run_ends (s : session) :
  exists e : ending (gmap string (option (list string))),
    forall fuel : nat,
      length (stdin s) < fuel ->
      get_google_fonts_index env_key key_file_writable server fuel s = Some e.
Proof.
  destruct (get_google_fonts_index_total env_key key_file_writable server
              (S (length (stdin s))) s) as [e He]; [lia|].
  exists e. intros fuel Hlt. apply (index_fuel_mono _ _ _ _ He). lia.
Qed.

End IndexBounds.

(** What the index gives for a family: the variants of the last record of
    that family, [regular] alone when that record has no variants, and
    nothing when no record has the family. *)
Theorem index_variants_of_last_record
    (items : list (string * option (list string))) (family : string) :
  get_available_variants family (index_of items) =
    match last (filter (fun f => f.1 = family) items) with
    | Some f => default ["regular"] f.2
    | None => []
    end.
Proof.
  unfold get_available_variants.
  assert (index_of items !! family =
            snd <$> last (filter (fun f => f.1 = family) items)) as ->.
  { unfold index_of. induction items as [|f items IH] using rev_ind; [reflexivity|].
    rewrite foldl_app, filter_app. cbn [foldl].
    destruct (decide (f.1 = family)) as [Heq|Hne].
    - rewrite filter_cons_True, filter_nil, last_snoc by exact Heq.
      rewrite Heq. apply lookup_insert_eq.
    - rewrite filter_cons_False, filter_nil, app_nil_r by exact Hne.
      now rewrite lookup_insert_ne. }
  now destruct (last _).
Qed.

Lemma api_key_sets_matching_url_witness :
  GOOGLE_API_URL
    (ending_session
       (get_google_fonts_api_key None true (initial_session [" k1 "; "YES"] None)))
    = api_url "k1".
Proof.
  apply (api_key_sets_matching_url None true
           (initial_session [" k1 "; "YES"] None)
           (ending_session
              (get_google_fonts_api_key None true (initial_session [" k1 "; "YES"] None)))
           "k1" eq_refl eq_refl eq_refl).
Defined.

Lemma index_fetches_bounded_witness :
  length [api_url "bad1"; api_url "bad2"; api_url "good"] + length ["unread"]
    <= 0 + 5 + 1.
Proof.
  apply (index_fetches_bounded None false sample_server 4
           (initial_session [" bad1 "; "n"; "bad2"; "good"; "unread"] None)
           (Returns (index_of sample_items)
              (mkSession "good" (api_url "good") ["unread"] None
                 [api_url "bad1"; api_url "bad2"; api_url "good"]))).
  vm_compute. reflexivity.
Defined.

Lemma index_run_ends_witness :
  exists e : ending (gmap string (option (list string))),
    get_google_fonts_index None false sample_server 3 sample_session = Some e /\
    get_google_fonts_index None false sample_server 50 sample_session = Some e.
Proof.
  destruct (index_run_ends None false sample_server sample_session) as [e He].
  exists e. split; apply He; cbn; lia.
Defined.

(** ** Provider chain and the plan of downloads *)

Section PlanFacts.

Context {W : Type}.
Variables search_1001fonts search_dafont search_freefont
  : string -> W -> option string * W.

Abbreviation chain :=
  (search_alternative_font_providers search_1001fonts search_dafont search_freefont).
Abbreviation resolve :=
  (resolve_missing search_1001fonts search_dafont search_freefont).
Abbreviation planning :=
  (plan_from search_1001fonts search_dafont search_freefont).

Lemma if_true_truthy (r : option string) (url : string) :
  if_true r = Some url -> truthy url = true.
Proof.
  destruct r as [u|]; cbn; [|discriminate].
  destruct (truthy u) eqn:E; [now intros [= <-]|discriminate].
Qed.

(** The shape of every run of the chain. *)
Lemma chain_run_shape (font_name : string) (st : chain_state) :
  exists n : nat,
    1 <= n <= 3 /\
    consulted (chain font_name st).2 = consulted st ++ take n provider_labels /\
    match (chain font_name st).1 with
    | Some r => truthy (ref_url r) = true /\
                last (take n provider_labels) = Some (ref_source r)
    | None => n = 3
    end.
Proof.
  unfold search_alternative_font_providers, bind, call, ret.
  destruct st as [w log]. cbn [world consulted].
  destruct (search_1001fonts font_name w) as [u1 w1]. cbn [fst snd world consulted].
  destruct (if_true u1) as [url1|] eqn:H1.
  { exists 1. cbn. split; [lia|]. split; [reflexivity|].
    split; [now apply (if_true_truthy u1)|reflexivity]. }
  cbn [world consulted].
  destruct (search_dafont font_name w1) as [u2 w2]. cbn [fst snd world consulted].
  destruct (if_true u2) as [url2|] eqn:H2.
  { exists 2. cbn. split; [lia|]. split; [now rewrite <- app_assoc|].
    split; [now apply (if_true_truthy u2)|reflexivity]. }
  cbn [world consulted].
  destruct (search_freefont font_name w2) as [u3 w3]. cbn [fst snd world consulted].
  exists 3. split; [lia|].
  destruct (if_true u3) as [url3|] eqn:H3; cbn; rewrite <- !app_assoc;
    (split; [reflexivity|]); [|reflexivity].
  split; [now apply (if_true_truthy u3)|reflexivity].
Qed.

(** A reference returned by the chain has a URL that is not empty and the
    label of the provider consulted last; a run consults at least the first
    provider and at most the three, in their order, and returns nothing only
    after all three. *)
Theorem chain_reference_well_formed (font_name : string) (st : chain_state) :
  let run := chain font_name st in
  (exists n : nat, 1 <= n <= 3 /\
     consulted run.2 = consulted st ++ take n provider_labels /\
     (run.1 = None -> n = 3)) /\
  (forall r, run.1 = Some r ->
     truthy (ref_url r) = true /\ ref_source r ∈ provider_labels /\
     last (consulted run.2) = Some (ref_source r)).
Proof.
  cbv zeta. destruct (chain_run_shape font_name st) as (n & Hn & Hlog & Hres).
  split.
  - exists n. split; [exact Hn|]. split; [exact Hlog|].
    intros Hnone. now rewrite Hnone in Hres.
  - intros r Hr. rewrite Hr in Hres. destruct Hres as [Hurl Hlast].
    split; [exact Hurl|]. split.
    + apply last_Some in Hlast as [l' Hl'].
      assert (ref_source r ∈ take n provider_labels) as Hin
        by (rewrite Hl'; apply elem_of_app; right; apply list_elem_of_here).
      revert Hin. apply subseteq_take.
    + rewrite Hlog.
      apply last_Some in Hlast as [l' Hl']. rewrite Hl', app_assoc.
      apply last_snoc.
Qed.

Lemma resolve_run (index : gmap string (option (list string))) (font : string)
    (st : chain_state) :
  let run := resolve index font st in
  match index !! font with
  | Some _ => run.2 = st /\ exists variants, run.1 = FromGoogle variants
  | None =>
      (forall variants, run.1 <> FromGoogle variants) /\
      world run.2 = world (chain font st).2 /\
      length (consulted st) + 1 <= length (consulted run.2)
        <= length (consulted st) + 3
  end.
Proof.
  cbv zeta. unfold resolve_missing. destruct (index !! font) as [v|].
  - split; [reflexivity|]. eexists. reflexivity.
  - unfold bind, ret.
    destruct (chain_run_shape font st) as (n & Hn & Hlog & _).
    destruct (chain font st) as [[alt|] st'] eqn:E; cbn [fst snd] in *.
    all: split; [discriminate|]; split; [reflexivity|].
    all: rewrite Hlog, length_app, length_take; cbn; lia.
Qed.

Lemma planning_cons (index : gmap string (option (list string))) (acc : plan)
    (entry : string * (list string * option string))
    (rest : list (string * (list string * option string))) (st : chain_state) :
  planning index acc (entry :: rest) st =
    planning index (plan_add acc entry (resolve index entry.1 st).1) rest
      (resolve index entry.1 st).2.
Proof.
  cbn [plan_from]. unfold plan_one, bind, ret.
  now destruct (resolve index entry.1 st).
Qed.

Lemma planned_add (acc : plan) (entry : string * (list string * option string))
    (r : resolution) :
  planned (plan_add acc entry r) ≡ₚ planned acc ++ [entry.1].
Proof.
  destruct entry as [font [styles matched]]. unfold planned.
  destruct r; cbn [plan_add to_download alternative_sources unavailable fst];
    rewrite !fmap_app; cbn [fmap list_fmap fst]; solve_Permutation.
Qed.

Lemma planning_run (index : gmap string (option (list string)))
    (missing_fonts : list (string * (list string * option string))) :
  forall (acc : plan) (st : chain_state),
    let run := planning index acc missing_fonts st in
    let unindexed := filter (fun e => index !! e.1 = None) missing_fonts in
    planned run.1 ≡ₚ planned acc ++ missing_fonts.*1 /\
    (to_download run.1).*1 =
      (to_download acc).*1 ++ (filter (fun e => is_Some (index !! e.1)) missing_fonts).*1 /\
    length (consulted st) + length unindexed <= length (consulted run.2)
      <= length (consulted st) + 3 * length unindexed.
Proof.
  induction missing_fonts as [|entry rest IH]; intros acc st.
  - cbn. rewrite !app_nil_r. split; [reflexivity|]. split; [reflexivity|lia].
  - cbv zeta in IH |- *. rewrite planning_cons.
    pose proof (resolve_run index entry.1 st) as Hres. cbv zeta in Hres.
    destruct (resolve index entry.1 st) as [r st1]. cbn [fst snd] in Hres |- *.
    destruct (IH (plan_add acc entry r) st1) as (Hperm & Hdl & Hlen).
    split.
    { rewrite Hperm, planned_add, fmap_cons, <- app_assoc. reflexivity. }
    destruct (index !! entry.1) as [v|] eqn:Hidx.
    + destruct Hres as [-> [variants ->]].
      rewrite (filter_cons_False
                 (fun e : string * (list string * option string) => index !! e.1 = None))
        by (intros H; cbv beta in H; rewrite Hidx in H; discriminate H).
      rewrite filter_cons_True by (cbv beta; rewrite Hidx; eauto).
      split; [|exact Hlen].
      rewrite Hdl. destruct entry as [font [styles matched]].
      cbn [plan_add to_download]. rewrite fmap_app, fmap_cons.
      cbn [fmap list_fmap fst]. now rewrite <- app_assoc.
    + destruct Hres as (Hng & _ & Hl1).
      rewrite (filter_cons_True
                 (fun e : string * (list string * option string) => index !! e.1 = None))
        by exact Hidx.
      rewrite filter_cons_False
        by (intros H; cbv beta in H; rewrite Hidx in H; destruct H; discriminate).
      cbn [length]. split; [|lia].
      rewrite Hdl. destruct entry as [font [styles matched]].
      destruct r as [variants|alt|]; [now destruct (Hng variants)|reflexivity..].
Qed.


End PlanFacts.

(** ** Sorting the requirements, and grouping what is missing *)

Lemma filter_bool_singleton {A : Type} (f : A -> bool) (x : A) :
  filter (fun a => f a = true) [x] = if f x then [x] else [].
Proof.
  destruct (f x) eqn:E.
  - now rewrite filter_cons_True.
  - rewrite filter_cons_False by congruence. reflexivity.
Qed.

Lemma filter_bool_snoc {A : Type} (f : A -> bool) (l : list A) (x : A) :
  filter (fun a => f a = true) (l ++ [x]) =
    filter (fun a => f a = true) l ++ (if f x then [x] else []).
Proof. now rewrite filter_app, filter_bool_singleton. Qed.

Section ClassifyFacts.

Variable bundled_fonts : gset string.
Variable system_fonts : gset string.
Variables lowercase_map normalized_map : gmap string string.
Variable installed_styles : gmap string (list string).

Abbreviation sorted_into :=
  (classify bundled_fonts system_fonts lowercase_map normalized_map installed_styles).
Abbreviation lookup_font req :=
  (is_font_installed req.1 req.2 system_fonts lowercase_map normalized_map
     (Some installed_styles)).
Abbreviation avail :=
  (is_available bundled_fonts system_fonts lowercase_map normalized_map installed_styles).
Abbreviation smiss :=
  (is_style_missing bundled_fonts system_fonts lowercase_map normalized_map
     installed_styles).
Abbreviation cmiss :=
  (is_completely_missing bundled_fonts system_fonts lowercase_map normalized_map
     installed_styles).

Lemma classify_one_lists (acc : classification) (req : string * string) :
  let c := classify_one bundled_fonts system_fonts lowercase_map normalized_map
             installed_styles acc req in
  available c = available acc ++ (if avail req then [req] else []) /\
  style_missing c =
    style_missing acc ++
      (if smiss req then [(req.1, req.2, matched_name (lookup_font req))] else []) /\
  completely_missing c =
    completely_missing acc ++ (if cmiss req then [req] else []).
Proof.
  destruct req as [name style]. cbv zeta.
  unfold classify_one, is_available, is_style_missing, is_completely_missing.
  cbn [fst snd].
  destruct (bool_decide (name ∈ bundled_fonts)); cbn [orb andb negb];
    [cbn; rewrite !app_nil_r; auto|].
  destruct (font_installed _); cbn [orb andb negb];
    [|cbn; rewrite !app_nil_r; auto].
  destruct (style_available _); cbn; rewrite !app_nil_r; auto.
Qed.

Lemma classify_lists (required : list (string * string)) :
  let c := sorted_into required in
  available c = filter (fun req => avail req = true) required /\
  style_missing c =
    map (fun req => (req.1, req.2, matched_name (lookup_font req)))
      (filter (fun req => smiss req = true) required) /\
  completely_missing c = filter (fun req => cmiss req = true) required.
Proof.
  cbv zeta. unfold classify.
  induction required as [|req required IH] using rev_ind; [auto|].
  rewrite foldl_app, !filter_bool_snoc, map_app. cbn [foldl].
  destruct (classify_one_lists
              (foldl (classify_one bundled_fonts system_fonts lowercase_map
                        normalized_map installed_styles)
                 (mkClassification [] [] []) required) req) as (-> & -> & ->).
  destruct IH as (-> & -> & ->).
  split; [reflexivity|]. split; [|reflexivity].
  now destruct (smiss req).
Qed.

(** Exactly one of the three tests holds for a requirement. *)
Lemma one_test_holds (req : string * string) :
  (avail req = true /\ smiss req = false /\ cmiss req = false) \/
  (avail req = false /\ smiss req = true /\ cmiss req = false) \/
  (avail req = false /\ smiss req = false /\ cmiss req = true).
Proof.
  unfold is_available, is_style_missing, is_completely_missing. cbv zeta.
  destruct (bool_decide (req.1 ∈ bundled_fonts)), (font_installed _),
    (style_available _); cbn; auto.
Qed.

(** Every requirement goes to exactly one of the three lists: together the
    lists hold the requirements, each as many times as it is required. *)
Theorem classify_partitions (required : list (string * string)) :
  let c := classify bundled_fonts system_fonts lowercase_map normalized_map
             installed_styles required in
  available c ++ map fst (style_missing c) ++ completely_missing c ≡ₚ required.
Proof.
  cbv zeta. destruct (classify_lists required) as (-> & -> & ->).
  induction required as [|req required IH]; [reflexivity|].
  destruct (one_test_holds req) as [(Ha & Hs & Hc)|[(Ha & Hs & Hc)|(Ha & Hs & Hc)]].
  - rewrite filter_cons_True, !filter_cons_False by congruence.
    cbn [app]. now rewrite IH.
  - rewrite filter_cons_False, filter_cons_True, filter_cons_False by congruence.
    destruct req as [name style]. cbn [map fst app].
    rewrite <- Permutation_middle. now rewrite IH.
  - rewrite !filter_cons_False, filter_cons_True by congruence.
    rewrite app_assoc, <- Permutation_middle, <- app_assoc. now rewrite IH.
Qed.

(** A requirement for a bundled family is available, whatever the fonts of
    the system, and the family is not in what is missing. *)
Theorem bundled_family_is_available (required : list (string * string))
    (name style : string) :
  name ∈ bundled_fonts ->
  (name, style) ∈ required ->
  (name, style) ∈
    available (classify bundled_fonts system_fonts lowercase_map normalized_map
                 installed_styles required) /\
  name ∉
    map info_name
      (missing_of (classify bundled_fonts system_fonts lowercase_map normalized_map
                     installed_styles required)).
Proof.
  intros Hb Hreq. destruct (classify_lists required) as (Ha & Hs & Hc).
  cbv zeta in *. split.
  - rewrite Ha. apply list_elem_of_filter. split; [|exact Hreq].
    unfold is_available. cbn. now rewrite bool_decide_eq_true_2.
  - unfold missing_of. rewrite Hs, Hc, map_app, !map_map.
    intros [H|H]%elem_of_app; apply list_elem_of_fmap in H as (req & Hn & Hin);
      apply list_elem_of_filter in Hin as [Ht _]; cbn in Hn; subst name;
      revert Ht; unfold is_style_missing, is_completely_missing; cbv zeta;
      rewrite (bool_decide_eq_true_2 _ Hb); discriminate.
Qed.

(** Whether a family is found does not depend on the style asked for: when
    one requirement of a family is completely missing, every requirement of
    that family is. *)
Theorem completely_missing_family (required : list (string * string))
    (name style other : string) :
  (name, style) ∈
    completely_missing (classify bundled_fonts system_fonts lowercase_map normalized_map
                          installed_styles required) ->
  (name, other) ∈ required ->
  (name, other) ∈
    completely_missing (classify bundled_fonts system_fonts lowercase_map normalized_map
                          installed_styles required).
Proof.
  destruct (classify_lists required) as (_ & _ & Hc). cbv zeta in Hc. rewrite Hc.
  intros [Ht _]%list_elem_of_filter Hreq.
  apply list_elem_of_filter. split; [|exact Hreq].
  revert Ht. unfold is_completely_missing. cbv zeta. cbn [fst snd].
  destruct (is_font_installed_family name style system_fonts lowercase_map
              normalized_map (Some installed_styles)) as (-> & _).
  destruct (is_font_installed_family name other system_fonts lowercase_map
              normalized_map (Some installed_styles)) as (-> & _).
  unfold is_font_installed.
  destruct (bool_decide (name ∈ system_fonts)), (lowercase_map !! lower name),
    (normalized_map !! normalize_font_name name); auto.
Qed.

End ClassifyFacts.

(** *** The dict of missing fonts *)

Lemma append_style_keys (name style : string)
    (d : list (string * (list string * option string))) :
  (append_style name style d).*1 = d.*1.
Proof.
  induction d as [|[key [styles matched]] d IH]; [reflexivity|].
  cbn [append_style]. destruct (String.eqb key name); cbn; [reflexivity|].
  now rewrite IH.
Qed.

Lemma dict_get_append_style (name style key : string)
    (d : list (string * (list string * option string))) :
  dict_get key (append_style name style d) =
    if String.eqb name key
    then (fun v => (v.1 ++ [style], v.2)) <$> dict_get key d
    else dict_get key d.
Proof.
  induction d as [|[k [styles matched]] d IH].
  - cbn. now destruct (String.eqb name key).
  - cbn [append_style]. destruct (String.eqb k name) eqn:Ekn.
    + apply String.eqb_eq in Ekn as ->. cbn [dict_get].
      destruct (String.eqb name key); reflexivity.
    + cbn [dict_get]. destruct (String.eqb k key) eqn:Ekk.
      * apply String.eqb_eq in Ekk as ->. rewrite String.eqb_sym, Ekn. reflexivity.
      * exact IH.
Qed.

Lemma dict_get_snoc {V : Type} (key name : string) (v : V) (d : list (string * V)) :
  dict_get key (d ++ [(name, v)]) =
    match dict_get key d with
    | Some x => Some x
    | None => if String.eqb name key then Some v else None
    end.
Proof.
  induction d as [|[k x] d IH]; [reflexivity|].
  cbn [app dict_get]. now destruct (String.eqb k key).
Qed.

Lemma dict_get_None {V : Type} (key : string) (d : list (string * V)) :
  dict_get key d = None <-> key ∉ d.*1.
Proof.
  induction d as [|[k x] d IH]; cbn [dict_get fmap list_fmap fst].
  - split; [intros _ H; inversion H|reflexivity].
  - rewrite not_elem_of_cons. destruct (String.eqb k key) eqn:E.
    + apply String.eqb_eq in E. split; [discriminate|]. intros [H _]. congruence.
    + apply String.eqb_neq in E. rewrite IH. split; [auto|now intros [_ H]].
Qed.

Lemma dict_get_elem_of {V : Type} (key : string) (v : V) (d : list (string * V)) :
  dict_get key d = Some v -> (key, v) ∈ d.
Proof.
  induction d as [|[k x] d IH]; cbn [dict_get]; [discriminate|].
  destruct (String.eqb k key) eqn:E.
  - apply String.eqb_eq in E as ->. intros [= ->]. apply list_elem_of_here.
  - intros H. apply list_elem_of_further. auto.
Qed.

Lemma elem_of_dict_get {V : Type} (key : string) (v : V) (d : list (string * V)) :
  NoDup d.*1 -> (key, v) ∈ d -> dict_get key d = Some v.
Proof.
  induction d as [|[k x] d IH]; cbn [dict_get fmap list_fmap fst];
    intros Hnd Hin; [inversion Hin|].
  apply NoDup_cons in Hnd as [Hk Hnd].
  apply elem_of_cons in Hin as [[= <- <-]|Hin].
  - now rewrite String.eqb_refl.
  - destruct (String.eqb k key) eqn:E; [|auto].
    apply String.eqb_eq in E as ->. destruct Hk.
    apply list_elem_of_fmap. exists (key, v). auto.
Qed.

Lemma group_one_keys (d : list (string * (list string * option string)))
    (info : missing_info) :
  (group_one d info).*1 =
    if bool_decide (info_name info ∈ d.*1) then d.*1 else d.*1 ++ [info_name info].
Proof.
  unfold group_one. rewrite append_style_keys.
  destruct (bool_decide _); [reflexivity|]. now rewrite fmap_app.
Qed.

Lemma dict_get_group_one (d : list (string * (list string * option string)))
    (info : missing_info) (key : string) :
  dict_get key (group_one d info) =
    if String.eqb (info_name info) key
    then Some match dict_get key d with
              | Some v => (v.1 ++ [info_style info], v.2)
              | None => ([info_style info], info_matched info)
              end
    else dict_get key d.
Proof.
  unfold group_one. rewrite dict_get_append_style.
  destruct (String.eqb (info_name info) key) eqn:E.
  - apply String.eqb_eq in E as <-.
    destruct (bool_decide_reflect (info_name info ∈ d.*1)) as [Hin|Hnin].
    + destruct (dict_get (info_name info) d) as [v|] eqn:Hg; [reflexivity|].
      apply dict_get_None in Hg. contradiction.
    + rewrite dict_get_snoc. apply dict_get_None in Hnin as ->.
      rewrite String.eqb_refl. destruct info; reflexivity.
  - destruct (bool_decide _); [reflexivity|].
    rewrite dict_get_snoc, E. now destruct (dict_get key d).
Qed.

(** The infos of a family, in the order of [missing]. *)
Abbreviation of_family key missing :=
  (filter (fun info => info_name info = key) missing).

Lemma group_missing_keys (missing : list missing_info) :
  NoDup (group_missing missing).*1.
Proof.
  unfold group_missing.
  induction missing as [|info missing IHnd] using rev_ind; [constructor|].
  rewrite foldl_app. cbn [foldl]. rewrite group_one_keys.
  destruct (bool_decide_reflect
              (info_name info ∈ (foldl group_one [] missing).*1)); [exact IHnd|].
  apply NoDup_app. split; [exact IHnd|]. split; [|apply NoDup_singleton].
  intros x Hx ->%list_elem_of_singleton. contradiction.
Qed.

Lemma group_missing_lookup (missing : list missing_info) (key : string) :
  dict_get key (group_missing missing) =
    match of_family key missing with
    | [] => None
    | first :: _ =>
        Some (map info_style (of_family key missing), info_matched first)
    end.
Proof.
  unfold group_missing.
  induction missing as [|info missing IH] using rev_ind; [reflexivity|].
  rewrite foldl_app. cbn [foldl].
  rewrite dict_get_group_one, IH, filter_app.
  destruct (String.eqb (info_name info) key) eqn:E.
  - apply String.eqb_eq in E.
    rewrite (filter_cons_True _ info) by exact E. rewrite filter_nil.
    destruct (of_family key missing) as [|first rest]; [reflexivity|].
    cbn [app map fst snd]. now rewrite map_app.
  - apply String.eqb_neq in E.
    rewrite (filter_cons_False _ info) by exact E.
    now rewrite filter_nil, app_nil_r.
Qed.

(** The dict of missing fonts has one entry for each family that is
    missing, with its styles in the order of [missing] and with the matched
    name of the first element of [missing] for that family. *)
Theorem group_missing_by_family (missing : list missing_info) (key : string) :
  NoDup (group_missing missing).*1 /\
  dict_get key (group_missing missing) =
    match of_family key missing with
    | [] => None
    | first :: _ =>
        Some (map info_style (of_family key missing), info_matched first)
    end.
Proof.
  split; [apply group_missing_keys|apply group_missing_lookup].
Qed.


(** ** The inventory and the matcher *)

Lemma empty_inventory_ok : inventory_ok empty_inventory.
Proof.
  unfold inventory_ok, empty_inventory. cbn.
  split; [apply dom_empty_L|].
  split; [intros ? ? H; now rewrite lookup_empty in H|].
  split; [intros ? ? H; now rewrite lookup_empty in H|].
  intros ? H. set_solver.
Qed.

Lemma add_font_ok (inv : inventory) (name : string) :
  inventory_ok inv -> inventory_ok (add_font inv name).
Proof.
  intros (Hdom & Hst & Hlow & Hin). unfold inventory_ok, add_font. cbn.
  split; [rewrite dom_insert_L, Hdom; reflexivity|].
  split; [|split].
  - intros n styles. rewrite lookup_insert.
    destruct (decide (name = n)) as [->|]; [|apply Hst].
    intros [= <-]. split; [now destruct (default [] _)|].
    apply Forall_app. split; [|repeat constructor].
    destruct (font_styles inv !! n) as [old|] eqn:E; cbn; [|constructor].
    now apply (Hst n old).
  - intros key n. rewrite lookup_insert.
    destruct (decide (lower name = key)) as [<-|].
    + intros [= <-]. split; [apply elem_of_union; left; now apply elem_of_singleton|
                             reflexivity].
    + intros H. destruct (Hlow key n H).
      split; [apply elem_of_union; now right|assumption].
  - intros n [->%elem_of_singleton|H]%elem_of_union.
    + rewrite lookup_insert_eq. eauto.
    + rewrite lookup_insert. destruct (decide _); eauto.
Qed.

Lemma get_system_fonts_with_styles_ok (system : string)
    (profiler : option (list (option string))) (font_files : list string) :
  inventory_ok (get_system_fonts_with_styles system profiler font_files).
Proof.
  unfold get_system_fonts_with_styles.
  destruct (String.eqb system "Darwin"); [|apply empty_inventory_ok].
  destruct profiler as [items|]; [|apply empty_inventory_ok].
  assert (Hitems : inventory_ok (foldl add_profiler_item empty_inventory items)).
  { induction items as [|item items IH] using rev_ind; [apply empty_inventory_ok|].
    rewrite foldl_app. cbn [foldl]. unfold add_profiler_item at 1.
    destruct (if_true item); [now apply add_font_ok|exact IH]. }
  revert Hitems. generalize (foldl add_profiler_item empty_inventory items).
  induction font_files as [|f font_files IH]; intros inv Hinv; [exact Hinv|].
  cbn [foldl]. apply IH. unfold add_font_file.
  destruct (bool_decide _); [exact Hinv|now apply add_font_ok].
Qed.

Section InventoryFacts.

Variable system : string.
Variable profiler : option (list (option string)).
Variable font_files : list string.

Abbreviation inv := (get_system_fonts_with_styles system profiler font_files).

(** The three parts of the inventory agree: the fonts that have styles are
    the installed fonts, each has at least one style and all its styles are
    the one read off its name, every entry of the lower-case map leads from
    the lower-case form of an installed name to that name, and every installed
    name has an entry. *)
Theorem inventory_is_consistent :
  dom (font_styles inv) = installed_fonts inv /\
  (forall name styles, font_styles inv !! name = Some styles ->
     styles <> [] /\ Forall (fun s => s = detect_style name) styles) /\
  (forall key name, lowercase_of inv !! key = Some name ->
     name ∈ installed_fonts inv /\ lower name = key) /\
  (forall name, name ∈ installed_fonts inv -> is_Some (lowercase_of inv !! lower name)).
Proof. apply get_system_fonts_with_styles_ok. Qed.

(** An installed name is matched exactly, and its style flag is true
    exactly for the style read off the name, or for every style when that
    style is Regular. *)
Theorem installed_name_matches (normalized_map : gmap string string)
    (name style : string) :
  name ∈ installed_fonts inv ->
  let r := is_font_installed name style (installed_fonts inv) (lowercase_of inv)
             normalized_map (Some (font_styles inv)) in
  font_installed r = true /\ match_type r = "exact match" /\ matched_name r = name /\
  (style_available r = true <->
   style = detect_style name \/ detect_style name = "Regular").
Proof.
  intros Hin. destruct (get_system_fonts_with_styles_ok system profiler font_files)
    as (Hdom & Hst & _).
  assert (Hsome : is_Some (font_styles inv !! name))
    by (apply elem_of_dom; now rewrite Hdom).
  destruct Hsome as [styles Hstyles].
  destruct (Hst name styles Hstyles) as [Hne Hall].
  cbv zeta. unfold is_font_installed.
  rewrite (bool_decide_eq_true_2 _ Hin), Hstyles.
  cbn [font_installed match_type matched_name style_available fst snd default
       from_option id].
  assert (Hmem : forall s, s ∈ styles <-> s = detect_style name).
  { intros s. split.
    - intros Hs. rewrite Forall_forall in Hall. now apply Hall.
    - intros ->. destruct styles as [|s0 styles]; [congruence|].
      apply Forall_cons in Hall as [-> _]. apply list_elem_of_here. }
  split; [now destruct (_ || _)|]. split; [now destruct (_ || _)|].
  split; [now destruct (_ || _)|].
  destruct (bool_decide_reflect (style ∈ styles)) as [H1|H1],
    (bool_decide_reflect ("Regular" ∈ styles)) as [H2|H2];
    cbn; rewrite Hmem in H1, H2; intuition congruence.
Qed.

(** A requirement that spells an installed name in another case is found. *)
Theorem other_case_is_found (normalized_map : gmap string string)
    (installed_styles : option (gmap string (list string)))
    (name spelled style : string) :
  name ∈ installed_fonts inv ->
  lower spelled = lower name ->
  font_installed
    (is_font_installed spelled style (installed_fonts inv) (lowercase_of inv)
       normalized_map installed_styles) = true.
Proof.
  intros Hin Hlow.
  destruct (get_system_fonts_with_styles_ok system profiler font_files)
    as (_ & _ & _ & Hl).
  destruct (Hl name Hin) as [found Hfound].
  destruct (is_font_installed_family spelled style (installed_fonts inv)
              (lowercase_of inv) normalized_map installed_styles) as (-> & _).
  unfold is_font_installed. rewrite Hlow, Hfound.
  now destruct (bool_decide _).
Qed.

(** Off macOS, or when the system profiler fails, the inventory is empty,
    so that every requirement is available when its family is bundled and
    completely missing otherwise. *)
Theorem no_inventory_means_missing (bundled_fonts : gset string)
    (required : list (string * string)) :
  system <> "Darwin" \/ profiler = None ->
  let c := classify bundled_fonts (installed_fonts inv) (lowercase_of inv)
             (build_normalized_map (elements (installed_fonts inv)))
             (font_styles inv) required in
  installed_fonts inv = ∅ /\
  available c = filter (fun req => req.1 ∈ bundled_fonts) required /\
  style_missing c = [] /\
  completely_missing c = filter (fun req => req.1 ∉ bundled_fonts) required.
Proof.
  intros Hoff.
  assert (Hempty : inv = empty_inventory).
  { unfold get_system_fonts_with_styles.
    destruct Hoff as [Hs| ->].
    - apply String.eqb_neq in Hs. now rewrite Hs.
    - now destruct (String.eqb system "Darwin"). }
  rewrite Hempty. cbv zeta. cbn [installed_fonts lowercase_of font_styles empty_inventory].
  split; [reflexivity|]. rewrite elements_empty.
  change (build_normalized_map []) with (∅ : gmap string string).
  destruct (classify_lists bundled_fonts ∅ ∅ ∅ ∅ required) as (-> & -> & ->).
  assert (Hnone : forall name style,
            font_installed (is_font_installed name style ∅ ∅ ∅ (Some ∅)) = false).
  { intros name style. unfold is_font_installed.
    rewrite bool_decide_eq_false_2 by apply not_elem_of_empty.
    now rewrite !lookup_empty. }
  split; [|split].
  - apply list_filter_iff. intros req. unfold is_available. cbv zeta.
    rewrite Hnone, orb_false_r. split; [apply bool_decide_eq_true_1|
                                        apply bool_decide_eq_true_2].
  - assert (filter (fun req => is_style_missing bundled_fonts ∅ ∅ ∅ ∅ req = true)
              required = []) as ->; [|reflexivity].
    clear Hempty. induction required as [|req required IH]; [reflexivity|].
    rewrite filter_cons_False; [exact IH|].
    unfold is_style_missing. cbv zeta. rewrite Hnone.
    rewrite andb_false_r. discriminate.
  - apply list_filter_iff. intros req. unfold is_completely_missing. cbv zeta.
    rewrite Hnone, andb_true_r. rewrite negb_true_iff.
    split; [apply bool_decide_eq_false_1|apply bool_decide_eq_false_2].
Qed.

End InventoryFacts.

(** ** The normalised map and the matcher over an inventory *)

Lemma normalized_map_sound_and_complete_aux (order : list string) :
  (forall key name, build_normalized_map order !! key = Some name ->
     name ∈ order /\ normalize_font_name name = key /\ truthy key = true) /\
  (forall name, name ∈ order -> truthy (normalize_font_name name) = true ->
     is_Some (build_normalized_map order !! normalize_font_name name)).
Proof.
  split.
  - intros key name. rewrite build_normalized_map_lookup.
    destruct (truthy key); [|discriminate].
    intros Hlast. apply last_Some in Hlast as [l' Hl'].
    assert (Hin : name ∈ filter (fun font => normalize_font_name font = key) order)
      by (rewrite Hl'; apply elem_of_app; right; apply list_elem_of_here).
    apply list_elem_of_filter in Hin as [Hk Hin]. auto.
  - intros name Hin Htrue. rewrite build_normalized_map_lookup, Htrue.
    assert (Hf : name ∈ filter (fun font => normalize_font_name font =
                                             normalize_font_name name) order)
      by (apply list_elem_of_filter; auto).
    destruct (filter _ order) as [|x l] using rev_ind; [inversion Hf|].
    rewrite last_snoc. eauto.
Qed.

(** The normalised map is sound and complete for the names it was built
    from: an entry leads from a key that is not empty to a name of the
    iteration that has this key, and every name whose key is not empty has its
    key in the map. *)
Theorem normalized_map_sound_and_complete (order : list string) :
  (forall key name, build_normalized_map order !! key = Some name ->
     name ∈ order /\ normalize_font_name name = key /\ truthy key = true) /\
  (forall name, name ∈ order -> truthy (normalize_font_name name) = true ->
     is_Some (build_normalized_map order !! normalize_font_name name)).
Proof. apply normalized_map_sound_and_complete_aux. Qed.

Section FoundIff.

Variable system : string.
Variable profiler : option (list (option string)).
Variable font_files : list string.
Variable order : list string.

Abbreviation inv := (get_system_fonts_with_styles system profiler font_files).

(** [order] is the order in which the set of installed fonts is iterated. *)
Hypothesis order_is_installed : forall name, name ∈ order <-> name ∈ installed_fonts inv.

(** Over the inventory, with the normalised map built from it, a family is
    found exactly when it is an installed name, or has the lower-case form of
    one, or has the normalised form of one and that form is not empty; and the
    name it is matched to is always an installed name. *)
Theorem found_iff_some_installed_name_agrees (font_name style : string)
    (installed_styles : option (gmap string (list string))) :
  let r := is_font_installed font_name style (installed_fonts inv) (lowercase_of inv)
             (build_normalized_map order) installed_styles in
  (font_installed r = true <->
   exists name, name ∈ installed_fonts inv /\
     (name = font_name \/ lower name = lower font_name \/
      (normalize_font_name name = normalize_font_name font_name /\
       truthy (normalize_font_name font_name) = true))) /\
  (font_installed r = true -> matched_name r ∈ installed_fonts inv).
Proof.
  cbv zeta.
  destruct (get_system_fonts_with_styles_ok system profiler font_files)
    as (_ & _ & Hlow & Hall).
  destruct (normalized_map_sound_and_complete_aux order) as [Hsound Hcomplete].
  destruct (is_font_installed_family font_name style (installed_fonts inv)
              (lowercase_of inv) (build_normalized_map order) installed_styles)
    as (-> & _ & ->).
  unfold is_font_installed.
  destruct (bool_decide_reflect (font_name ∈ installed_fonts inv)) as [Hin|Hnin].
  { cbn [font_installed matched_name fst snd]. split; [|auto].
    split; [|auto]. intros _. exists font_name. auto. }
  destruct (lowercase_of inv !! lower font_name) as [found|] eqn:Hl.
  { destruct (Hlow _ _ Hl) as [Hf Hlf]. cbn [font_installed matched_name fst snd].
    split; [|auto]. split; [|auto]. intros _. exists found. auto. }
  destruct (build_normalized_map order !! normalize_font_name font_name)
    as [found|] eqn:Hn.
  { destruct (Hsound _ _ Hn) as (Hf & Hk & Ht).
    cbn [font_installed matched_name fst snd]. split.
    - split; [|auto]. intros _. exists found.
      split; [now apply order_is_installed|auto].
    - intros _. now apply order_is_installed. }
  cbn [font_installed matched_name fst snd]. split; [|discriminate].
  split; [discriminate|].
  intros (name & Hname & [->|[Hlower|[Hnorm Ht]]]).
  - contradiction.
  - destruct (Hall name Hname) as [x Hx]. rewrite Hlower in Hx. congruence.
  - destruct (Hcomplete name) as [x Hx]; [now apply order_is_installed|
      now rewrite Hnorm|].
    rewrite Hnorm in Hx. congruence.
Qed.

End FoundIff.

(** ** The requirements of a scan *)

Global Instance pair_le_total : Total pair_le.
Proof.
  intros [a1 a2] [b1 b2]. unfold pair_le. cbn.
  destruct (decide (a1 = b1)) as [->|Hne].
  - destruct (String.le_total a2 b2); auto.
  - destruct (String.le_total a1 b1); auto.
Qed.

Global Instance pair_le_trans : Transitive pair_le.
Proof.
  intros [a1 a2] [b1 b2] [c1 c2]. unfold pair_le. cbn.
  intros [[Hab Hle1]|[-> Hle1]] [[Hbc Hle2]|[-> Hle2]]; auto.
  - left. split; [|etrans; eauto].
    intros ->. apply Hab. now apply (anti_symm String.le).
  - right. split; [reflexivity|]. etrans; eauto.
Qed.

Global Instance pair_le_anti_symm : AntiSymm (=) pair_le.
Proof.
  intros [a1 a2] [b1 b2]. unfold pair_le. cbn.
  intros [[Hab Hle1]|[-> Hle1]] [[Hba Hle2]|[Heq Hle2]]; try congruence.
  - destruct Hab. now apply (anti_symm String.le).
  - f_equal. now apply (anti_symm String.le).
Qed.

(** The requirements that the matcher works on have no duplicate, are in
    increasing order, are exactly the pairs that were extracted, and do not
    depend on the order or on the repetitions in what was extracted. *)
Theorem required_fonts_sorted_and_unique (raw : list (string * string)) :
  NoDup (sorted_set raw) /\
  StronglySorted pair_le (sorted_set raw) /\
  (forall req, req ∈ sorted_set raw <-> req ∈ raw) /\
  length (sorted_set raw) <= length raw /\
  (forall other, (forall req, req ∈ other <-> req ∈ raw) ->
     sorted_set other = sorted_set raw).
Proof.
  unfold sorted_set.
  assert (Hperm : forall l, merge_sort pair_le (remove_dups l) ≡ₚ remove_dups l)
    by (intros l; apply merge_sort_Permutation).
  split; [rewrite Hperm; apply NoDup_remove_dups|].
  split; [apply StronglySorted_merge_sort; apply _|].
  split; [intros req; rewrite Hperm; apply elem_of_remove_dups|].
  split.
  - rewrite Hperm. clear.
    induction raw as [|x raw IH]; [reflexivity|]. cbn [remove_dups].
    destruct (decide_rel elem_of x raw); cbn; lia.
  - intros other Hsame.
    apply (StronglySorted_unique pair_le);
      [apply StronglySorted_merge_sort; apply _..|].
    rewrite !Hperm. apply NoDup_Permutation; [apply NoDup_remove_dups..|].
    intros req. rewrite !elem_of_remove_dups. apply Hsame.
Qed.

Lemma required_fonts_sorted_and_unique_witness :
  sorted_set [("Inter", "Regular"); ("Arial", "Bold"); ("Inter", "Bold");
              ("Arial", "Bold")] =
  sorted_set [("Arial", "Bold"); ("Inter", "Bold"); ("Inter", "Regular")].
Proof.
  symmetry.
  apply (proj2 (proj2 (proj2 (proj2 (required_fonts_sorted_and_unique
           [("Inter", "Regular"); ("Arial", "Bold"); ("Inter", "Bold");
            ("Arial", "Bold")]))))).
  intros req. rewrite !elem_of_cons. rewrite !elem_of_nil. tauto.
Defined.

Example sorted_set_example :
  sorted_set [("b", "x"); ("B", "y"); ("ab", "z"); ("a", "z"); ("a", "Z"); ("b", "x");
              ("abc", "")] =
  [("B", "y"); ("a", "Z"); ("a", "z"); ("ab", "z"); ("abc", ""); ("b", "x")].
Proof. vm_compute. reflexivity. Qed.

(** ** Choosing the path to scan *)

Lemma select_loop_skips (first_default : string) (skipped : list string) :
  Forall not_a_choice skipped ->
  forall (fuel : nat) (stdin : list string),
    select_loop (length skipped + fuel) first_default (skipped ++ stdin) =
      select_loop fuel first_default stdin.
Proof.
  induction 1 as [|line skipped [H1 H2] _ IH]; intros fuel stdin; [reflexivity|].
  cbn [length Nat.add app select_loop].
  apply String.eqb_neq in H1, H2. now rewrite H1, H2.
Qed.

Lemma select_loop_at_end (first_default : string) (fuel : nat) :
  select_loop fuel first_default [] = None.
Proof. induction fuel as [|fuel IH]; [reflexivity|exact IH]. Qed.

(** With default paths, lines that are neither 1 nor 2 are passed over and
    the first line that is 1 selects the first default path; but when the
    input ends before a choice is made, or right after the choice 2, the loop
    does not return, however long it runs. *)
Theorem select_resolve_path_keeps_asking (first_default : string)
    (others skipped : list string) :
  Forall not_a_choice skipped ->
  (forall (line : string) (rest : list string) (fuel : nat),
     strip line = "1" ->
     select_resolve_path (length skipped + S fuel) (first_default :: others)
       (skipped ++ line :: rest) = Some (Selected first_default rest)) /\
  (forall fuel : nat,
     select_resolve_path fuel (first_default :: others) skipped = None) /\
  (forall (line : string) (fuel : nat),
     strip line = "2" ->
     select_resolve_path fuel (first_default :: others) (skipped ++ [line]) = None).
Proof.
  intros Hskip. cbn [select_resolve_path]. split; [|split].
  - intros line rest fuel Hline. rewrite select_loop_skips by exact Hskip.
    cbn [select_loop]. now rewrite Hline.
  - induction Hskip as [|l skipped [H1 H2] _ IH]; intros fuel;
      [apply select_loop_at_end|].
    destruct fuel as [|fuel]; [reflexivity|]. cbn [select_loop].
    apply String.eqb_neq in H1, H2. rewrite H1, H2. apply IH.
  - intros line fuel Hline. revert fuel.
    induction Hskip as [|l skipped [H1 H2] _ IH]; intros fuel.
    + destruct fuel as [|fuel]; [reflexivity|]. cbn [app select_loop].
      rewrite Hline. cbn. apply select_loop_at_end.
    + destruct fuel as [|fuel]; [reflexivity|]. cbn [app select_loop].
      apply String.eqb_neq in H1, H2. rewrite H1, H2. apply IH.
Qed.

Lemma select_resolve_path_keeps_asking_witness :
  select_resolve_path 3 ["/Library/Resolve"; "/opt"] ["3"; "x"; " 1 "; "left"] =
    Some (Selected "/Library/Resolve" ["left"]) /\
  select_resolve_path 100 ["/Library/Resolve"; "/opt"] ["3"; "x"] = None.
Proof.
  assert (H : Forall not_a_choice ["3"; "x"]).
  { repeat constructor; vm_compute; discriminate. }
  destruct (select_resolve_path_keeps_asking "/Library/Resolve" ["/opt"] ["3"; "x"] H)
    as (H1 & H2 & _).
  split; [exact (H1 " 1 " ["left"] 0 eq_refl)|exact (H2 100)].
Defined.

(** ** The marker of variable fonts *)

Lemma bytes_startswith_iff (data prefix : list byte) :
  bytes_startswith data prefix = true <-> exists rest, data = prefix ++ rest.
Proof.
  revert data. induction prefix as [|p prefix IH]; intros data.
  - split; [eauto|now destruct data].
  - destruct data as [|d data]; cbn [bytes_startswith].
    + split; [discriminate|]. intros [rest H]. discriminate.
    + rewrite andb_true_iff, IH. split.
      * intros [Hp [rest ->]]. apply Byte.byte_dec_bl in Hp as ->. eauto.
      * intros [rest [= -> ->]]. split; [now apply Byte.byte_dec_lb|eauto].
Qed.

Lemma bytes_contains_iff (needle data : list byte) :
  bytes_contains needle data = true <->
  exists before after, data = before ++ needle ++ after.
Proof.
  induction data as [|d data IH]; cbn [bytes_contains];
    rewrite orb_true_iff, bytes_startswith_iff.
  - split.
    + intros [[rest H]|H]; [|discriminate]. exists [], rest. exact H.
    + intros (before & after & H). left.
      destruct before; [eauto|discriminate].
  - rewrite IH. split.
    + intros [[rest H]|(before & after & ->)]; [exists [], rest; exact H|].
      exists (d :: before), after. reflexivity.
    + intros (before & after & H). destruct before as [|b before].
      * left. eauto.
      * injection H as -> ->. right. eauto.
Qed.

(** Without [fontTools] a file counts as a variable font exactly when the
    four bytes fvar occur somewhere in it; such a file then replaces an
    installed font of the same name even when replacing was declined. *)
Theorem marker_bytes_make_a_font_variable (data : list byte) :
  (is_variable_font None data = true <->
   exists before after, data = before ++ FVAR ++ after) /\
  (forall (dest : dir) (path : string),
     is_variable_font None data = true ->
     is_font_file path = true ->
     is_Some (dest !! basename path) ->
     install_fonts_from_temp None false [(path, data)] dest =
       (<[basename path := data]> dest, mkCounts 0 1 1 0)).
Proof.
  split; [apply bytes_contains_iff|].
  intros dest path Hvar Hfont Hsome. unfold install_fonts_from_temp.
  rewrite filter_cons_True, filter_nil by exact Hfont.
  cbn [foldl]. unfold install_one. cbn [fst snd].
  rewrite Hvar, (bool_decide_eq_true_2 _ Hsome). reflexivity.
Qed.

Lemma marker_bytes_make_a_font_variable_witness :
  let data := list_byte_of_string "xxfvarxx" in
  (install_fonts_from_temp None false [("fonts/Inter.ttf", data)]
     {["Inter.ttf" := list_byte_of_string "old"]}).1 !! "Inter.ttf" = Some data.
Proof.
  cbv zeta.
  rewrite (proj2 (marker_bytes_make_a_font_variable (list_byte_of_string "xxfvarxx"))
             {["Inter.ttf" := list_byte_of_string "old"]} "fonts/Inter.ttf"
             eq_refl eq_refl ltac:(eexists; reflexivity)).
  reflexivity.
Defined.

(** ** A descriptor without the key *)

Lemma match_lit_needs_prefix (t s : string) :
  startswith s t = false -> forall w, Re.match_lit t w s = None.
Proof.
  revert s. induction t as [|a t IH]; intros s; cbn [startswith Re.match_lit];
    [discriminate|].
  destruct s as [|b s]; [reflexivity|].
  destruct (Ascii.eqb a b); cbn [andb]; [|reflexivity]. intros H w. now apply IH.
Qed.

Lemma match_here_needs_key (key s : string) (w : bool) :
  startswith s key = false -> Re.match_here (input_value_re key) w s = None.
Proof.
  intros H. unfold Re.match_here, input_value_re, cat_all. cbn [foldr Re.rmatch].
  now rewrite match_lit_needs_prefix.
Qed.

Lemma findall_needs_key (key : string) (fuel : nat) :
  forall (s : string) (w : bool),
    contains key s = false -> Re.findall_go fuel (input_value_re key) w s = [].
Proof.
  induction fuel as [|fuel IH]; intros s w Hs; [reflexivity|].
  cbn [Re.findall_go].
  destruct s as [|c s]; cbn [contains] in Hs; apply orb_false_iff in Hs as [H1 H2].
  - now rewrite match_here_needs_key.
  - rewrite match_here_needs_key by exact H1. now apply IH.
Qed.

(** A text in which the word Font does not occur gives no requirement,
    whatever styles it declares. *)
Theorem no_font_key_no_requirement (file : read_result) (content : string) :
  text_read file = Some content ->
  contains "Font" content = false ->
  parse_fonts_from_setting file = [].
Proof.
  intros Hread Hno.
  assert (parse_fonts_from_setting file = fonts_of_content content) as ->.
  { destruct file as [c| |[c|]|]; simpl in *; congruence. }
  unfold fonts_of_content, Re.findall, font_re.
  now rewrite findall_needs_key.
Qed.

Lemma no_font_key_no_requirement_witness :
  parse_fonts_from_setting
    (UnicodeDecodeError
       (Some ("Style = Input { Value = " +:+ dquote +:+ "Bold" +:+ dquote +:+ ", }")))
    = [].
Proof.
  apply (no_font_key_no_requirement
           (UnicodeDecodeError
              (Some ("Style = Input { Value = " +:+ dquote +:+ "Bold" +:+ dquote +:+ ", }")))
           ("Style = Input { Value = " +:+ dquote +:+ "Bold" +:+ dquote +:+ ", }")
           eq_refl).
  reflexivity.
Defined.

(** ** The properties at work on concrete inventories *)

Lemma bundled_family_is_available_witness :
  ("Inter", "Bold") ∈
    available (classify {["Inter"]} ∅ ∅ ∅ ∅ [("Futura", "Bold"); ("Inter", "Bold")]).
Proof.
  apply (bundled_family_is_available {["Inter"]} ∅ ∅ ∅ ∅
           [("Futura", "Bold"); ("Inter", "Bold")] "Inter" "Bold").
  - set_solver.
  - apply list_elem_of_further, list_elem_of_here.
Defined.

Lemma completely_missing_family_witness :
  ("Futura", "Italic") ∈
    completely_missing
      (classify ∅ ∅ ∅ ∅ ∅ [("Futura", "Bold"); ("Futura", "Italic")]).
Proof.
  apply (completely_missing_family ∅ ∅ ∅ ∅ ∅
           [("Futura", "Bold"); ("Futura", "Italic")] "Futura" "Bold" "Italic").
  - vm_compute. apply list_elem_of_here.
  - apply list_elem_of_further, list_elem_of_here.
Defined.

Lemma inventory_is_consistent_witness :
  font_styles sample_inventory !! "Futura Bold" = Some ["Bold"] /\
  ["Bold"] <> [] /\ Forall (fun s => s = detect_style "Futura Bold") ["Bold"].
Proof.
  split; [reflexivity|].
  apply (proj1 (proj2 (inventory_is_consistent "Darwin"
                         (Some [Some "Futura Bold"; None; Some "Inter"])
                         ["Inter"; "Menlo-Italic"])) "Futura Bold" ["Bold"]).
  reflexivity.
Defined.

Lemma installed_name_matches_witness :
  "Menlo-Italic" ∈ installed_fonts sample_inventory /\
  style_available
    (is_font_installed "Menlo-Italic" "Italic" (installed_fonts sample_inventory)
       (lowercase_of sample_inventory) ∅ (Some (font_styles sample_inventory))) = true.
Proof.
  assert (H : "Menlo-Italic" ∈ installed_fonts sample_inventory).
  { apply (bool_decide_unpack _). vm_compute. exact I. }
  split; [exact H|].
  destruct (installed_name_matches "Darwin"
              (Some [Some "Futura Bold"; None; Some "Inter"]) ["Inter"; "Menlo-Italic"]
              ∅ "Menlo-Italic" "Italic" H) as (_ & _ & _ & Hstyle).
  apply Hstyle. left. reflexivity.
Defined.

Lemma other_case_is_found_witness :
  font_installed
    (is_font_installed "FUTURA bold" "Bold" (installed_fonts sample_inventory)
       (lowercase_of sample_inventory) ∅ None) = true.
Proof.
  apply (other_case_is_found "Darwin"
           (Some [Some "Futura Bold"; None; Some "Inter"]) ["Inter"; "Menlo-Italic"]
           ∅ None "Futura Bold" "FUTURA bold" "Bold").
  - apply (bool_decide_unpack _). vm_compute. exact I.
  - reflexivity.
Defined.

Lemma no_inventory_means_missing_witness :
  completely_missing
    (classify {["Inter"]}
       (installed_fonts (get_system_fonts_with_styles "Linux" None ["Menlo"]))
       (lowercase_of (get_system_fonts_with_styles "Linux" None ["Menlo"]))
       (build_normalized_map
          (elements (installed_fonts (get_system_fonts_with_styles "Linux" None ["Menlo"]))))
       (font_styles (get_system_fonts_with_styles "Linux" None ["Menlo"]))
       [("Inter", "Bold"); ("Menlo", "Regular")]) =
  filter (fun req => req.1 ∉ ({["Inter"]} : gset string))
    [("Inter", "Bold"); ("Menlo", "Regular")].
Proof.
  apply (no_inventory_means_missing "Linux" None ["Menlo"] {["Inter"]}
           [("Inter", "Bold"); ("Menlo", "Regular")]).
  left. discriminate.
Defined.

Lemma normalized_map_sound_and_complete_witness :
  is_Some (build_normalized_map ["Futura Bold"; "Inter"] !! normalize_font_name "Inter").
Proof.
  apply (proj2 (normalized_map_sound_and_complete ["Futura Bold"; "Inter"]) "Inter").
  - apply list_elem_of_further, list_elem_of_here.
  - reflexivity.
Defined.

Lemma found_iff_some_installed_name_agrees_witness :
  font_installed
    (is_font_installed "inter_" "Bold" (installed_fonts sample_inventory)
       (lowercase_of sample_inventory)
       (build_normalized_map (elements (installed_fonts sample_inventory))) None) = true.
Proof.
  apply (proj1 (found_iff_some_installed_name_agrees "Darwin"
                  (Some [Some "Futura Bold"; None; Some "Inter"]) ["Inter"; "Menlo-Italic"]
                  (elements (installed_fonts sample_inventory))
                  (fun name => elem_of_elements _ name) "inter_" "Bold" None)).
  exists "Inter". split.
  - apply (bool_decide_unpack _). vm_compute. exact I.
  - right. right. split; reflexivity.
Defined.

Lemma chain_reference_well_formed_witness :
  last (consulted
          (search_alternative_font_providers
             (fun _ (w : unit) => (None, w))
             (fun name w => (Some ("https://www.dafont.com/" +:+ name), w))
             (fun _ w => (None, w))
             "futura" (mkChain tt [])).2) = Some "DaFont".
Proof.
  apply (proj2 (chain_reference_well_formed
                  (fun _ (w : unit) => (None, w))
                  (fun name w => (Some ("https://www.dafont.com/" +:+ name), w))
                  (fun _ w => (None, w))
                  "futura" (mkChain tt []))
           (mkReference "https://www.dafont.com/futura" "DaFont") eq_refl).
Defined.

Lemma index_exits_only_at_first_prompt_witness :
  get_google_fonts_index None true sample_server 1 (initial_session ["  "; "k"] None) =
    Some (SystemExit (initial_session ["k"] None)).
Proof.
  apply (index_exits_only_at_first_prompt None true sample_server 0
           (initial_session ["  "; "k"] None) (initial_session ["k"] None)).
  split; [reflexivity|]. split; [reflexivity|]. split; [reflexivity|].
  exists "  ", ["k"]. split; [reflexivity|]. split; reflexivity.
Defined.
